(** * Bank-connection server actions of the apps-sdk template

    Shallow embedding of
    - [src/app/connect-bank/actions.ts] (createPlaidLinkToken,
      exchangePlaidPublicToken),
    - [src/lib/services/plaid-service.ts] (createLinkToken,
      exchangePublicToken wrappers),
    - [src/unnamed/part_003] (the alternative userId-based server actions),
    - [src/unnamed/part_000] (the plaid_items table and its
      UNIQUE(user_id, item_id) constraint),
    - [src/lib/services/session-service.ts] (the in-memory session cache).

    Asynchronous code is modelled as an error/state monad: the state is the
    plaid_items table together with a trace of the calls made to external
    collaborators; a JS exception is the error of the monad.  Collaborators
    (auth server, Plaid client, subscription helper, email service) are
    oracles collected in a record [Env]. *)

From stdpp Require Import base gmap strings list pretty sorting.
From Stdlib Require Import ZArith.

Open Scope string_scope.

(* ------------------------------------------------------------------ *)
(** ** JS values: exceptions and thrown results *)

(** A thrown value: an [Error] instance with its message, or anything else. *)
Inductive Exn :=
| JsError (message : string)
| NonError.

(** [error instanceof Error ? error.message : dflt] *)
Definition error_message_or (e : Exn) (dflt : string) : string :=
  match e with
  | JsError m => m
  | NonError => dflt
  end.

(** Outcome of an awaited collaborator call. *)
Inductive Res (A : Type) :=
| Ok (a : A)
| Throw (e : Exn).
Arguments Ok {A} a.
Arguments Throw {A} e.

(** JS truthiness of an optional string ([undefined], [null], [""] are falsy). *)
Definition truthy (s : option string) : bool :=
  match s with
  | Some v => negb (bool_decide (v = ""))
  | None => false
  end.

(** [s || undefined] on an optional string *)
Definition or_undefined (s : option string) : option string :=
  if truthy s then s else None.

(* ------------------------------------------------------------------ *)
(** ** Persistent data: the plaid_items table (src/unnamed/part_000) *)

Record plaid_item := mk_plaid_item {
  user_id : string;
  item_id : string;
  access_token_encrypted : string;
  institution_id : option string;
  institution_name : option string;
  status : string;   (* active, error, revoked *)
}.

(** Calls to collaborators outside the process, in the order they are made. *)
Inductive Call :=
| CGetMcpSession (authorization : option string)
| CHasActiveSubscription (uid : string)
| CLinkTokenCreate (uid : string)
| CItemPublicTokenExchange (public_token : string)
| CInsertPlaidItem (uid iid : string)
| CSendBankConnectionConfirmation (email : string).

Record World := mk_world {
  plaid_items : list plaid_item;
  calls : list Call;   (* most recent first *)
}.

(** The key of the UNIQUE(user_id, item_id) constraint. *)
Definition item_key (r : plaid_item) : string * string := (user_id r, item_id r).

(** The table satisfies its UNIQUE(user_id, item_id) constraint. *)
Definition unique_user_item (items : list plaid_item) : Prop :=
  NoDup (map item_key items).

(* ------------------------------------------------------------------ *)
(** ** The error/state monad of an async server action *)

Definition M (A : Type) := World -> Res A * World.

Definition ret {A} (a : A) : M A := fun w => (Ok a, w).

Definition bind {A B} (m : M A) (k : A -> M B) : M B :=
  fun w => match m w with
           | (Ok a, w') => k a w'
           | (Throw e, w') => (Throw e, w')
           end.

Notation "x <- m ;; k" := (bind m (fun x => k))
  (at level 94, m at next level, right associativity).
Notation "m ;;; k" := (bind m (fun _ => k))
  (at level 94, right associativity).

Definition throw {A} (e : Exn) : M A := fun w => (Throw e, w).

(** [await] of a collaborator's answer *)
Definition lift {A} (r : Res A) : M A := fun w => (r, w).

(** [try { m } catch (e) { h(e) }] *)
Definition try_catch {A} (m : M A) (h : Exn -> M A) : M A :=
  fun w => match m w with
           | (Throw e, w') => h e w'
           | r => r
           end.

Definition record_call (c : Call) : M unit :=
  fun w => (Ok tt, mk_world (plaid_items w) (c :: calls w)).

Definition get_items : M (list plaid_item) := fun w => (Ok (plaid_items w), w).

Definition put_items (l : list plaid_item) : M unit :=
  fun w => (Ok tt, mk_world l (calls w)).

(* ------------------------------------------------------------------ *)
(** ** Collaborators *)

Record link_token_data := mk_link_token_data {
  link_token : string;
  expiration : string;
}.

(** A row of the subscription table, as read by the plan query. *)
Record subscription_row := mk_subscription_row {
  reference_id : string;
  sub_status : string;
  plan : option string;
  (** [periodStart?]: the column is nullable *)
  period_start : option Z;
}.

Record user_row := mk_user_row {
  email : option string;
  name : option string;
}.

Record Env := mk_env {
  (** the [Authorization] header of the incoming request *)
  request_authorization : option string;
  (** [auth.api.getMcpSession]: the session's userId, if any *)
  getMcpSession : option string -> Res (option string);
  (** [hasActiveSubscription] *)
  hasActiveSubscription : string -> Res bool;
  (** the subscription table *)
  subscriptions : list subscription_row;
  (** [getPlaidClient().linkTokenCreate] *)
  linkTokenCreate : string -> Res link_token_data;
  (** [getPlaidClient().itemPublicTokenExchange]: (access_token, item_id) *)
  itemPublicTokenExchange : string -> Res (string * string);
  (** the encryption service used when an item is saved *)
  encrypt : string -> string;
  (** [SELECT email, name FROM "user" WHERE id = $1] (with the email
      service import and the pool connection before it) *)
  select_user : string -> Res (option user_row);
  (** [EmailService.sendBankConnectionConfirmation] *)
  sendBankConnectionConfirmation : string -> string -> string -> bool -> Res unit;
}.

(* ------------------------------------------------------------------ *)
(** ** plaid-service.ts: wrappers around the Plaid client *)

(** [createLinkToken(userId)]: failures are re-thrown as a new [Error]
    whose message embeds the original one. *)
Definition createLinkToken (env : Env) (userId : string) : M link_token_data :=
  record_call (CLinkTokenCreate userId) ;;;
  try_catch (lift (linkTokenCreate env userId))
    (fun error => throw (JsError ("Failed to create link token: " +:+
                                  error_message_or error "Unknown error"))).

(** [exchangePublicToken(publicToken)]: returns (accessToken, itemId). *)
Definition exchangePublicToken (env : Env) (publicToken : string) : M (string * string) :=
  record_call (CItemPublicTokenExchange publicToken) ;;;
  try_catch (lift (itemPublicTokenExchange env publicToken))
    (fun error => throw (JsError ("Failed to exchange public token: " +:+
                                  error_message_or error "Unknown error"))).

(* ------------------------------------------------------------------ *)
(** ** user-service.ts (not part of the sources) *)

(** Modelled from the spec: [UserService.getUserPlaidItems(userId, true)]
    is the Item Store's [getUserItems(userId, activeOnly)]: the rows of the
    user whose status is [active]. *)
Definition user_items (userId : string) (activeOnly : bool) (items : list plaid_item)
    : list plaid_item :=
  filter (fun r => user_id r = userId /\ (activeOnly = true -> status r = "active")) items.

Definition getUserPlaidItems (userId : string) (activeOnly : bool) : M (list plaid_item) :=
  items <- get_items ;;
  ret (user_items userId activeOnly items).

(** The error raised by the database when an insert violates
    UNIQUE(user_id, item_id). *)
Definition duplicate_item_message : string :=
  "duplicate key value violates unique constraint plaid_items_user_id_item_id_key".

(** Modelled from the spec: [UserService.savePlaidItem] is the Item Store's
    [createItem]: it encrypts the access token, then inserts a row with
    status [active]; an insert that violates the UNIQUE(user_id, item_id)
    constraint of plaid_items raises [DuplicateItem] and leaves the table
    unchanged. *)
Definition savePlaidItem (env : Env) (userId itemId accessToken : string)
    (institutionId institutionName : option string) : M unit :=
  let row := mk_plaid_item userId itemId (encrypt env accessToken)
                           institutionId institutionName "active" in
  record_call (CInsertPlaidItem userId itemId) ;;;
  items <- get_items ;;
  if bool_decide (item_key row ∈ map item_key items)
  then throw (JsError duplicate_item_message)
  else put_items (items ++ [row]).

(* ------------------------------------------------------------------ *)
(** ** The plan query and the plan limits of createPlaidLinkToken *)

(** The order of [ORDER BY period_start DESC] in PostgreSQL, where a
    descending order puts NULLs first: [sorts_before a b] holds when a row
    with [period_start = a] comes strictly before one with [b]. *)
Definition sorts_before (a b : option Z) : bool :=
  match a, b with
  | None, Some _ => true
  | Some x, Some y => bool_decide (y < x)%Z
  | _, _ => false
  end.

(** [SELECT plan FROM subscription WHERE reference_id = $1 AND status IN
    ('active', 'trialing') ORDER BY period_start DESC LIMIT 1]; among rows
    with the same period_start the first one in table order is returned. *)
Fixpoint latest_subscription (userId : string) (rows : list subscription_row)
    : option subscription_row :=
  match rows with
  | [] => None
  | r :: rs =>
      let rest := latest_subscription userId rs in
      if bool_decide (reference_id r = userId /\
                      (sub_status r = "active" \/ sub_status r = "trialing"))
      then match rest with
           | Some r' => if sorts_before (period_start r') (period_start r)
                        then Some r' else Some r
           | None => Some r
           end
      else rest
  end.

(** [subscription?.plan || 'basic'] *)
Definition plan_of (sub : option subscription_row) : string :=
  match sub with
  | Some s => if truthy (plan s) then default "basic" (plan s) else "basic"
  | None => "basic"
  end.

(** The value of [planLimits[plan] ?? 3]: a number, or an inherited member of
    [Object.prototype] (a function or object, which [??] keeps). *)
Inductive max_accounts_value :=
| Limit (n : nat)
| InheritedMember.

Definition object_prototype_members : list string :=
  ["constructor"; "__proto__"; "hasOwnProperty"; "isPrototypeOf";
   "propertyIsEnumerable"; "toString"; "toLocaleString"; "valueOf";
   "__defineGetter__"; "__defineSetter__"; "__lookupGetter__";
   "__lookupSetter__"].

Definition planLimits (plan : string) : max_accounts_value :=
  if bool_decide (plan = "basic") then Limit 3
  else if bool_decide (plan = "pro") then Limit 10
  else if bool_decide (plan = "enterprise") then Limit 999999
  else if bool_decide (plan ∈ object_prototype_members) then InheritedMember
  else Limit 3.

(** [existingItems.length >= maxAccounts]: a non-number converts to NaN,
    and every comparison with NaN is false. *)
Definition at_or_over (count : nat) (m : max_accounts_value) : bool :=
  match m with
  | Limit n => bool_decide (n <= count)
  | InheritedMember => false
  end.

(** The template string of the quota failure; [${n}] renders [n] in decimal. *)
Definition account_limit_message (maxAccounts : nat) : string :=
  "Account limit reached. Your plan allows " +:+ pretty maxAccounts +:+
  " bank account(s). Please upgrade or remove an existing connection.".

Definition auth_required_message : string :=
  "Authentication required. Please sign in first through ChatGPT.".
Definition subscription_required_message : string :=
  "Active subscription required. Please subscribe first.".

(* ------------------------------------------------------------------ *)
(** ** connect-bank/actions.ts *)

Inductive LinkTokenResult :=
| LinkOk (linkToken expiration : string)
| LinkFail (error : string).

Inductive ExchangeTokenResult :=
| ExchangeOk (itemId : string) (institutionName : option string)
| ExchangeFail (error : string).

(** [metadata.institution] of a [PlaidMetadata] *)
Record institution_metadata := mk_institution_metadata {
  institution_id_field : option string;
  institution_name_field : option string;
}.

(** The headers handed to [getMcpSession]: the request's, with
    [Authorization] replaced by [Bearer ${mcpToken}] when a token is given. *)
Definition auth_header (env : Env) (mcpToken : option string) : option string :=
  if truthy mcpToken then Some ("Bearer " +:+ default "" mcpToken)
  else request_authorization env.

(** [await auth.api.getMcpSession({ headers: authHeaders })]?.userId *)
Definition getMcpSessionUserId (env : Env) (mcpToken : option string) : M (option string) :=
  let h := auth_header env mcpToken in
  record_call (CGetMcpSession h) ;;;
  lift (getMcpSession env h).

Definition check_subscription (env : Env) (userId : string) : M bool :=
  record_call (CHasActiveSubscription userId) ;;;
  lift (hasActiveSubscription env userId).

Definition createPlaidLinkToken (env : Env) (mcpToken : option string) : M LinkTokenResult :=
  try_catch (
    session <- getMcpSessionUserId env mcpToken ;;
    if negb (truthy session) then ret (LinkFail auth_required_message) else
    let userId := default "" session in
    hasSubscription <- check_subscription env userId ;;
    if negb hasSubscription then ret (LinkFail subscription_required_message) else
    existingItems <- getUserPlaidItems userId true ;;
    let plan := plan_of (latest_subscription userId (subscriptions env)) in
    let maxAccounts := planLimits plan in
    let proceed :=
      linkTokenData <- createLinkToken env userId ;;
      ret (LinkOk (link_token linkTokenData) (expiration linkTokenData)) in
    match maxAccounts with
    | Limit n =>
        if bool_decide (n <= length existingItems)
        then ret (LinkFail (account_limit_message n))
        else proceed
    | InheritedMember => proceed   (* length >= NaN is false *)
    end)
  (fun error => ret (LinkFail (error_message_or error "Failed to initialize bank connection"))).

(** The email block of exchangePlaidPublicToken: read the user and the
    number of active items, then send the confirmation. *)
Definition send_connection_email (env : Env) (userId : string)
    (institutionName : option string) : M unit :=
  userResult <- lift (select_user env userId) ;;
  items <- get_items ;;
  let accountCount :=
    length (filter (fun r => user_id r = userId /\ status r = "active") items) in
  let isFirstAccount := bool_decide (accountCount = 1) in
  match userResult with
  | Some user =>
      if truthy (email user) && truthy institutionName then
        let userName := if truthy (name user) then default "" (name user) else "there" in
        record_call (CSendBankConnectionConfirmation (default "" (email user))) ;;;
        lift (sendBankConnectionConfirmation env (default "" (email user)) userName
                (default "" institutionName) isFirstAccount)
      else ret tt
  | None => ret tt
  end.

Definition exchangePlaidPublicToken (env : Env) (publicToken : string)
    (institution : option institution_metadata) (mcpToken : option string)
    : M ExchangeTokenResult :=
  try_catch (
    session <- getMcpSessionUserId env mcpToken ;;
    if negb (truthy session) then ret (ExchangeFail auth_required_message) else
    let userId := default "" session in
    hasSubscription <- check_subscription env userId ;;
    if negb hasSubscription then ret (ExchangeFail subscription_required_message) else
    if bool_decide (publicToken = "") then ret (ExchangeFail "Missing public token") else
    tokens <- exchangePublicToken env publicToken ;;
    let accessToken := fst tokens in
    let itemId := snd tokens in
    let institutionId := or_undefined (institution ≫= institution_id_field) in
    let institutionName := or_undefined (institution ≫= institution_name_field) in
    savePlaidItem env userId itemId accessToken institutionId institutionName ;;;
    try_catch (send_connection_email env userId institutionName)
      (fun _ => ret tt) ;;;   (* email failure shouldn't block connection *)
    ret (ExchangeOk itemId institutionName))
  (fun error => ret (ExchangeFail (error_message_or error "Failed to connect bank account"))).

(* ------------------------------------------------------------------ *)
(** ** The alternative server actions of src/unnamed/part_003 *)

Module Part003.

Inductive ActionResult :=
| ActionOk
| ActionFail (error : string).

Record PlaidInstitution := mk_plaid_institution {
  id : option string;
  name : option string;
}.

Inductive LinkResult :=
| LinkTokenOk (linkToken : string)
| LinkTokenFail (error : string).

Definition createPlaidLinkToken (env : Env) (userId : string) : M LinkResult :=
  if bool_decide (userId = "") then ret (LinkTokenFail "User ID is required") else
  try_catch (
    data <- createLinkToken env userId ;;
    ret (LinkTokenOk (link_token data)))
  (fun _ => ret (LinkTokenFail "Failed to create Plaid link token")).

Definition exchangePlaidPublicToken (env : Env) (userId publicToken : string)
    (institution : PlaidInstitution) : M ActionResult :=
  if bool_decide (userId = "") then ret (ActionFail "User ID is required") else
  try_catch (
    tokens <- exchangePublicToken env publicToken ;;
    savePlaidItem env userId (snd tokens) (fst tokens) (id institution) (name institution) ;;;
    ret ActionOk)
  (fun _ => ret (ActionFail "Failed to exchange Plaid public token")).

End Part003.

(* ------------------------------------------------------------------ *)
(** ** session-service.ts: the in-memory session cache *)

Module SessionService.

Record UserSession := mk_user_session {
  sessionId : string;
  accessToken : string;
  itemId : string;
  createdAt : Z;        (* milliseconds *)
  lastAccessedAt : Z;
}.

(** [private sessions: Map<string, UserSession>] *)
Abbreviation Sessions := (gmap string UserSession).

(** [createSession(accessToken, itemId)]; [generated] is the value of
    [generateSessionId()] (32 random bytes in hex) and [now] the clock. *)
Definition createSession (generated : string) (now : Z) (accessToken itemId : string)
    (sessions : Sessions) : Sessions * string :=
  let session := mk_user_session generated accessToken itemId now now in
  (<[generated := session]> sessions, generated).

(** [getAccessToken(sessionId)]: also refreshes [lastAccessedAt]. *)
Definition getAccessToken (sid : string) (now : Z) (sessions : Sessions)
    : Sessions * option string :=
  match sessions !! sid with
  | None => (sessions, None)
  | Some s =>
      (<[sid := mk_user_session (sessionId s) (accessToken s) (itemId s)
                                (createdAt s) now]> sessions,
       Some (accessToken s))
  end.

(** [isValidSession(sessionId)] *)
Definition isValidSession (sid : string) (sessions : Sessions) : bool :=
  bool_decide (is_Some (sessions !! sid)).

(** [deleteSession(sessionId)] *)
Definition deleteSession (sid : string) (sessions : Sessions) : Sessions * bool :=
  (delete sid sessions, isValidSession sid sessions).

(** [age > maxAge] for a session at time [now] *)
Definition is_old (maxAgeInDays now : Z) (s : UserSession) : bool :=
  bool_decide (maxAgeInDays * 24 * 60 * 60 * 1000 < now - lastAccessedAt s)%Z.

(** The [for (const [sessionId, session] of this.sessions.entries())]
    loop of cleanupOldSessions: an old session is deleted and counted.
    Deleting the entry being visited does not change which entries the
    iterator visits next, so the loop visits the entries the map had when
    it started. *)
Fixpoint cleanup_loop (maxAgeInDays now : Z) (entries : list (string * UserSession))
    (sessions : Sessions) (deletedCount : nat) : Sessions * nat :=
  match entries with
  | [] => (sessions, deletedCount)
  | (sid, session) :: entries' =>
      if is_old maxAgeInDays now session
      then cleanup_loop maxAgeInDays now entries' (delete sid sessions) (S deletedCount)
      else cleanup_loop maxAgeInDays now entries' sessions deletedCount
  end.

(** [cleanupOldSessions(maxAgeInDays)]: runs the loop over the entries of
    the map from [deletedCount = 0] and returns the count.  The entries
    are visited in the order of [map_to_list]; the result does not depend
    on that order. *)
Definition cleanupOldSessions (maxAgeInDays now : Z) (sessions : Sessions)
    : Sessions * nat :=
  cleanup_loop maxAgeInDays now (map_to_list sessions) sessions 0.

(** The public operations, with the values of the clock and of the
    session-id generator they observe. *)
Inductive SessionOp :=
| OpCreate (generated : string) (now : Z) (accessToken itemId : string)
| OpGetAccessToken (sid : string) (now : Z)
| OpIsValidSession (sid : string)
| OpDeleteSession (sid : string)
| OpGetSessionInfo (sid : string)
| OpCleanup (maxAgeInDays now : Z).

Definition step (sessions : Sessions) (op : SessionOp) : Sessions :=
  match op with
  | OpCreate g now t i => (createSession g now t i sessions).1
  | OpGetAccessToken sid now => (getAccessToken sid now sessions).1
  | OpIsValidSession _ => sessions
  | OpDeleteSession sid => (deleteSession sid sessions).1
  | OpGetSessionInfo _ => sessions
  | OpCleanup d now => (cleanupOldSessions d now sessions).1
  end.

Fixpoint run (sessions : Sessions) (ops : list SessionOp) : Sessions :=
  match ops with
  | [] => sessions
  | op :: ops' => run (step sessions op) ops'
  end.

(** [op] removes session [sid] from [sessions] (deleteSession or a cleanup
    sweep that evicts it) or reuses [sid] as a freshly generated id. *)
Definition removes (sid : string) (sessions : Sessions) (op : SessionOp) : bool :=
  match op with
  | OpCreate g _ _ _ => bool_decide (g = sid)
  | OpDeleteSession s => bool_decide (s = sid)
  | OpCleanup d now =>
      match sessions !! sid with
      | Some s => is_old d now s
      | None => false
      end
  | _ => false
  end.

(** No operation of the run removes (or regenerates) session [sid]. *)
Fixpoint keeps (sid : string) (sessions : Sessions) (ops : list SessionOp) : bool :=
  match ops with
  | [] => true
  | op :: ops' => negb (removes sid sessions op) && keeps sid (step sessions op) ops'
  end.

End SessionService.

(* ------------------------------------------------------------------ *)
(** ** session-service.ts: getSessionInfo *)

Module SessionInfo.
Import SessionService.

(** The object returned by [getSessionInfo]: the session without its
    access token. *)
Record SessionInfo := mk_session_info {
  info_sessionId : string;
  info_itemId : string;
  info_createdAt : Z;
  info_lastAccessedAt : Z;
}.

Definition getSessionInfo (sid : string) (sessions : Sessions) : option SessionInfo :=
  match sessions !! sid with
  | None => None
  | Some s => Some (mk_session_info (sessionId s) (itemId s) (createdAt s) (lastAccessedAt s))
  end.

End SessionInfo.

(* ------------------------------------------------------------------ *)
(** ** mcp-auth.ts: validating the MCP session *)

Module McpAuth.

(** What [auth.api.getMcpSession] resolves to: the OAuth access-token row
    of the bearer, or null. *)
Record mcp_session_data := mk_mcp_session_data {
  sd_userId : option string;
  sd_accessToken : string;
}.

Record McpSession := mk_mcp_session {
  userId : string;
  sessionId : string;
}.

Definition auth_required_mcp_message : string :=
  "Authentication required. Please authenticate with ChatGPT.".

Section Auth.
Context {Headers : Type}.

(** [getMcpSession(headers)]; [auth_api] is [auth.api.getMcpSession]. *)
Definition getMcpSession (auth_api : Headers -> Res (option mcp_session_data))
    (headers : Headers) : option McpSession :=
  match auth_api headers with
  | Throw _ => None                        (* catch: return null *)
  | Ok None => None                        (* !sessionData?.userId *)
  | Ok (Some sd) =>
      if negb (truthy (sd_userId sd)) then None
      else Some (mk_mcp_session (default "" (sd_userId sd)) (sd_accessToken sd))
  end.

Definition requireMcpAuth (auth_api : Headers -> Res (option mcp_session_data))
    (headers : Headers) : Res McpSession :=
  match getMcpSession auth_api headers with
  | None => Throw (JsError auth_required_mcp_message)
  | Some session => Ok session
  end.

Definition isAuthenticated (auth_api : Headers -> Res (option mcp_session_data))
    (headers : Headers) : bool :=
  match getMcpSession auth_api headers with
  | None => false
  | Some _ => true
  end.

Definition getOptionalMcpAuth (auth_api : Headers -> Res (option mcp_session_data))
    (headers : Headers) : option McpSession :=
  getMcpSession auth_api headers.

End Auth.

End McpAuth.

(* ------------------------------------------------------------------ *)
(** ** metadata.ts: the OpenAI metadata of a tool call *)

Module Metadata.

(** JS values as far as [extractOpenAIMetadata] inspects them.  Numbers
    are [JNum] for integers and [JNaN]; the code only tests numbers for
    truthiness, where any other number behaves as a non-zero [JNum]. *)
Inductive JsVal :=
| JUndefined
| JNull
| JBool (b : bool)
| JNum (n : Z)
| JNaN
| JStr (s : string)
| JObj (fields : list (string * JsVal))
| JArr (elems : list JsVal)
| JFun.

Definition js_truthy (v : JsVal) : bool :=
  match v with
  | JUndefined | JNull | JNaN => false
  | JBool b => b
  | JNum n => bool_decide (n <> 0%Z)
  | JStr s => bool_decide (s <> "")
  | JObj _ | JArr _ | JFun => true
  end.

(** [typeof v === 'object'] *)
Definition typeof_object (v : JsVal) : bool :=
  match v with
  | JNull | JObj _ | JArr _ => true
  | _ => false
  end.

Fixpoint lookup_field (k : string) (fields : list (string * JsVal)) : JsVal :=
  match fields with
  | [] => JUndefined
  | (k', v) :: fields' => if bool_decide (k' = k) then v else lookup_field k fields'
  end.

(** [v?.[k]] for a key that is not an inherited property *)
Definition get (v : JsVal) (k : string) : JsVal :=
  match v with
  | JObj fields => lookup_field k fields
  | _ => JUndefined
  end.

(** [a || b] *)
Definition js_or (a b : JsVal) : JsVal := if js_truthy a then a else b.

Definition default_location : JsVal :=
  JObj [("city", JStr "Unknown"); ("region", JStr "Unknown"); ("country", JStr "US");
        ("timezone", JStr "UTC"); ("latitude", JStr "0"); ("longitude", JStr "0")].

(** [extractOpenAIMetadata(params)]; [None] is [undefined]. *)
Definition extractOpenAIMetadata (params : JsVal) : option JsVal :=
  let meta := get params "_meta" in
  if negb (js_truthy meta) || negb (typeof_object meta) then None else
  let hasOpenAIFields :=
    js_or (js_or (js_or (get meta "openai/userAgent") (get meta "openai/locale"))
                 (get meta "openai/userLocation"))
          (get meta "openai/subject") in
  if negb (js_truthy hasOpenAIFields) then None else
  Some (JObj [("openai/userAgent", js_or (get meta "openai/userAgent") (JStr "unknown"));
              ("openai/locale", js_or (get meta "openai/locale") (JStr "en-US"));
              ("openai/userLocation", js_or (get meta "openai/userLocation") default_location);
              ("openai/subject", js_or (get meta "openai/subject") (JStr "unknown"))]).

End Metadata.

(* ------------------------------------------------------------------ *)
(** ** scripts/migrate.ts: the migration runner *)

Module Migrate.

(** [s.endsWith(suffix)] (file names are ASCII strings) *)
Definition ends_with (suffix s : string) : bool :=
  let n := String.length s in
  let k := String.length suffix in
  bool_decide (k <= n) && bool_decide (String.substring (n - k) k s = suffix).

(** [readdirSync(migrationsDir).filter(f => f.endsWith('.sql')).sort()];
    the default sort compares code units, i.e. [String.leb] on ASCII. *)
Definition migration_files (dir : list string) : list string :=
  merge_sort String.le (filter (fun f => ends_with ".sql" f = true) dir).

(** The database: the rows of the migrations table (in insertion order)
    and the rest of the schema. *)
Record MigDb {D : Type} := mk_mig_db {
  applied : list string;
  schema : D;
}.
Arguments MigDb : clear implicits.

Inductive Outcome :=
| UpToDate                   (* 'All migrations already up to date!' *)
| RanMigrations (n : nat)    (* 'Successfully ran n migration(s)!' *)
| Exit1 (e : Exn).           (* 'Migration failed', process.exit(1) *)

Section Runner.
Context {D : Type}.
(** [readFileSync(join(migrationsDir, filename))] and [client.query(sql)]
    on the schema; the bookkeeping queries (CREATE TABLE IF NOT EXISTS,
    SELECT, BEGIN, INSERT, COMMIT, ROLLBACK) are assumed to succeed. *)
Context (readFileSync : string -> Res string) (query : string -> D -> Res D).

(** The for loop over [migrationFiles]; [executedSet] is read once before
    the loop, [ran] is [migrationsRan]. *)
Fixpoint run_files (executedSet : list string) (files : list string)
    (db : MigDb D) (ran : nat) : MigDb D * Res nat :=
  match files with
  | [] => (db, Ok ran)
  | filename :: files' =>
      if bool_decide (filename ∈ executedSet) then run_files executedSet files' db ran
      else
        match readFileSync filename with
        | Throw e => (db, Throw e)
        | Ok sql =>
            (* BEGIN; sql; INSERT INTO migrations; COMMIT -- or ROLLBACK *)
            match query sql (schema db) with
            | Throw e => (db, Throw e)
            | Ok s' =>
                run_files executedSet files'
                  (mk_mig_db D (applied db ++ [filename])%list s') (S ran)
            end
        end
  end.

Definition runMigrations (dir : list string) (db : MigDb D) : MigDb D * Outcome :=
  let migrationFiles := migration_files dir in
  let executedSet := applied db in
  match run_files executedSet migrationFiles db 0 with
  | (db', Throw e) => (db', Exit1 e)
  | (db', Ok 0) => (db', UpToDate)
  | (db', Ok n) => (db', RanMigrations n)
  end.

(** The migration files not yet recorded, in the order they are run. *)
Definition pending (dir : list string) (db : MigDb D) : list string :=
  filter (fun f => f ∉ applied db) (migration_files dir).

(** Running the SQL of [files] in order on schema [s]. *)
Fixpoint replay (files : list string) (s : D) : Res D :=
  match files with
  | [] => Ok s
  | f :: files' =>
      match readFileSync f with
      | Throw e => Throw e
      | Ok sql =>
          match query sql s with
          | Throw e => Throw e
          | Ok s' => replay files' s'
          end
      end
  end.

End Runner.

End Migrate.

(* ------------------------------------------------------------------ *)
(** ** ItemsService of src/unnamed/part_005 (the user_items table) *)

Module ItemsService.
Import Metadata.

(** A row of user_items (the drizzle schema is not part of the sources:
    the columns are those the service reads and writes). *)
Record user_item := mk_user_item {
  id : string;
  userId : string;
  title : string;
  description : option string;
  metadata : option JsVal;
  order : Z;
  status : string;
  createdAt : Z;
  updatedAt : Z;
  archivedAt : option Z;
  deletedAt : option Z;
}.

(** The table, by primary key [id]. *)
Abbreviation Table := (gmap string user_item).

Record CreateItemInput := mk_create_item_input {
  ci_userId : string;
  ci_title : string;
  ci_description : option string;
  ci_metadata : option JsVal;
  ci_order : option Z;
}.

Record UpdateItemInput := mk_update_item_input {
  ui_title : option string;
  ui_description : option string;
  ui_status : option string;
  ui_metadata : option JsVal;
  ui_order : option Z;
}.

Inductive order_column := ByCreatedAt | ByUpdatedAt | ByOrder | ByTitle.
Inductive order_direction := Asc | Desc.

Record GetItemsOptions := mk_get_items_options {
  go_status : option string;
  go_limit : option nat;
  go_offset : option nat;
  go_orderBy : option order_column;
  go_orderDirection : option order_direction;
}.

Definition not_found_message : string := "Item not found or access denied".

(** The error of an INSERT whose generated primary key is taken. *)
Definition duplicate_key_message : string :=
  "duplicate key value violates unique constraint".

(** [createItem(input)]; [generated] and [now] are the column defaults
    of [id] and of the timestamps. *)
Definition createItem (generated : string) (now : Z) (input : CreateItemInput)
    (t : Table) : Res user_item * Table :=
  match t !! generated with
  | Some _ => (Throw (JsError duplicate_key_message), t)
  | None =>
      let item := mk_user_item generated (ci_userId input) (ci_title input)
                    (ci_description input) (ci_metadata input)
                    (default 0%Z (ci_order input)) "active" now now None None in
      (Ok item, <[generated := item]> t)
  end.

(** WHERE id = itemId AND userId = userId *)
Definition getItem (itemId uid : string) (t : Table) : option user_item :=
  match t !! itemId with
  | Some item => if bool_decide (userId item = uid) then Some item else None
  | None => None
  end.

(** [UPDATE user_items SET ... WHERE id AND userId RETURNING]; no row:
    [Error("Item not found or access denied")]. *)
Definition update_owned (set : user_item -> user_item) (itemId uid : string)
    (t : Table) : Res user_item * Table :=
  match getItem itemId uid t with
  | None => (Throw (JsError not_found_message), t)
  | Some item => (Ok (set item), <[itemId := set item]> t)
  end.

(** [.set({ ...input, updatedAt: new Date() })]: drizzle skips the
    undefined fields. *)
Definition set_update (input : UpdateItemInput) (now : Z) (item : user_item) : user_item :=
  mk_user_item (id item) (userId item)
    (default (title item) (ui_title input))
    (match ui_description input with Some d => Some d | None => description item end)
    (match ui_metadata input with Some m => Some m | None => metadata item end)
    (default (order item) (ui_order input))
    (default (status item) (ui_status input))
    (createdAt item) now (archivedAt item) (deletedAt item).

Definition updateItem (itemId uid : string) (input : UpdateItemInput) (now : Z)
    (t : Table) : Res user_item * Table :=
  update_owned (set_update input now) itemId uid t.

Definition archiveItem (itemId uid : string) (archivedNow updatedNow : Z)
    (t : Table) : Res user_item * Table :=
  update_owned (fun item =>
    mk_user_item (id item) (userId item) (title item) (description item) (metadata item)
      (order item) "archived" (createdAt item) updatedNow (Some archivedNow)
      (deletedAt item)) itemId uid t.

Definition deleteItem (itemId uid : string) (deletedNow updatedNow : Z)
    (t : Table) : Res user_item * Table :=
  update_owned (fun item =>
    mk_user_item (id item) (userId item) (title item) (description item) (metadata item)
      (order item) "deleted" (createdAt item) updatedNow (archivedAt item)
      (Some deletedNow)) itemId uid t.

Definition restoreItem (itemId uid : string) (now : Z)
    (t : Table) : Res user_item * Table :=
  update_owned (fun item =>
    mk_user_item (id item) (userId item) (title item) (description item) (metadata item)
      (order item) "active" (createdAt item) now None None) itemId uid t.

(** [DELETE FROM user_items WHERE id AND userId RETURNING] *)
Definition hardDeleteItem (itemId uid : string) (t : Table) : Res user_item * Table :=
  match getItem itemId uid t with
  | None => (Throw (JsError not_found_message), t)
  | Some item => (Ok item, delete itemId t)
  end.

(** The WHERE clause of getUserItems and countUserItems. *)
Definition matches (uid : string) (st : option string) (item : user_item) : Prop :=
  userId item = uid /\ (if truthy st then status item = default "" st else True).

#[global] Instance matches_dec uid st item : Decision (matches uid st item).
Proof. unfold matches. destruct (truthy st); apply _. Defined.

(** [countUserItems(userId, status?)]: the number of matching rows. *)
Definition countUserItems (uid : string) (st : option string) (t : Table) : nat :=
  size (filter (fun kv : string * user_item => matches uid st kv.2) t).

(** [getUserItems(userId, options)]: [db_order] is the database's
    ORDER BY on a column and direction (its order on ties is not fixed). *)
Definition getUserItems
    (db_order : order_column -> order_direction -> list user_item -> list user_item)
    (uid : string) (options : GetItemsOptions) (t : Table) : list user_item :=
  let st := Some (default "active" (go_status options)) in
  let limit := default 50 (go_limit options) in
  let offset := default 0 (go_offset options) in
  let orderBy := default ByCreatedAt (go_orderBy options) in
  let orderDirection := default Desc (go_orderDirection options) in
  take limit (drop offset
    (db_order orderBy orderDirection (filter (matches uid st) (map_to_list t).*2))).

(** The service's operations on an existing row. *)
Inductive ItemMutation :=
| MUpdate (input : UpdateItemInput) (now : Z)
| MArchive (archivedNow updatedNow : Z)
| MDelete (deletedNow updatedNow : Z)
| MRestore (now : Z)
| MHardDelete.

Definition mutate (m : ItemMutation) (itemId uid : string) (t : Table)
    : Res user_item * Table :=
  match m with
  | MUpdate input now => updateItem itemId uid input now t
  | MArchive a u => archiveItem itemId uid a u t
  | MDelete d u => deleteItem itemId uid d u t
  | MRestore now => restoreItem itemId uid now t
  | MHardDelete => hardDeleteItem itemId uid t
  end.

End ItemsService.

(* ------------------------------------------------------------------ *)
(** ** Sample inputs *)

(** An environment in which the auth server answers [session], the
    subscription helper [sub], Plaid answers [link] and [exch], and the
    email step reads [user] and sends with outcome [send]. *)
Definition sample_env (session : Res (option string)) (sub : Res bool)
    (subs : list subscription_row) (link : Res link_token_data)
    (exch : Res (string * string)) (user : Res (option user_row)) (send : Res unit) : Env :=
  mk_env (Some "Bearer header-token") (fun _ => session) (fun _ => sub) subs
         (fun _ => link) (fun _ => exch) (fun t => "enc:" +:+ t)
         (fun _ => user) (fun _ _ _ _ => send).

Definition sample_item (u iid : string) : plaid_item :=
  mk_plaid_item u iid "enc:access-sandbox" (Some "ins_1") (Some "Bank") "active".

Definition sample_world (items : list plaid_item) : World := mk_world items [].

Definition basic_subscription (u : string) : subscription_row :=
  mk_subscription_row u "active" (Some "basic") (Some 0%Z).

Definition sample_link : link_token_data :=
  mk_link_token_data "link-sandbox-1" "2026-10-18T12:00:00Z".

Definition sample_user : user_row := mk_user_row (Some "ann@example.com") (Some "Ann").

Definition sample_institution : institution_metadata :=
  mk_institution_metadata (Some "ins_1") (Some "Bank").

(** Substring test on strings. *)
Fixpoint is_prefix (p s : string) : bool :=
  match p, s with
  | EmptyString, _ => true
  | String a p', String b s' => bool_decide (a = b) && is_prefix p' s'
  | String _ _, EmptyString => false
  end.

Fixpoint contains (s sub : string) : bool :=
  is_prefix sub s ||
  match s with
  | EmptyString => false
  | String _ s' => contains s' sub
  end.

(* ------------------------------------------------------------------ *)
(** ** Effects of an action on the plaid_items table *)

Section Stable.
Context (R : list plaid_item -> list plaid_item -> Prop) `{!PreOrder R}.

(** [m] moves the table only along [R]. *)
Definition stable {A} (m : M A) : Prop :=
  forall w, R (plaid_items w) (plaid_items (m w).2).

Lemma stable_ret {A} (a : A) : stable (ret a).
Proof. intros w. reflexivity. Qed.

Lemma stable_lift {A} (r : Res A) : stable (lift r).
Proof. intros w. reflexivity. Qed.

Lemma stable_throw {A} (e : Exn) : stable (A := A) (throw e).
Proof. intros w. reflexivity. Qed.

Lemma stable_record_call c : stable (record_call c).
Proof. intros w. reflexivity. Qed.

Lemma stable_get_items : stable get_items.
Proof. intros w. reflexivity. Qed.

Lemma stable_bind {A B} (m : M A) (k : A -> M B) :
  stable m -> (forall a, stable (k a)) -> stable (bind m k).
Proof.
  intros Hm Hk w. unfold bind.
  specialize (Hm w). destruct (m w) as [[a|e] w'] eqn:E; simpl in *.
  - etrans; [exact Hm | apply Hk].
  - exact Hm.
Qed.

Lemma stable_try_catch {A} (m : M A) (h : Exn -> M A) :
  stable m -> (forall e, stable (h e)) -> stable (try_catch m h).
Proof.
  intros Hm Hh w. unfold try_catch.
  specialize (Hm w). destruct (m w) as [[a|e] w'] eqn:E; simpl in *.
  - exact Hm.
  - etrans; [exact Hm | apply Hh].
Qed.
End Stable.

Create HintDb stable_db.
#[export] Hint Resolve stable_ret stable_lift stable_throw stable_record_call
  stable_get_items : stable_db.

(** Decompose a monadic program into its primitive steps. *)
Ltac stable_steps :=
  repeat first
    [ solve [eauto with stable_db typeclass_instances]
    | progress cbv zeta
    | apply stable_bind; [..|intros ?]
    | apply stable_try_catch; [..|intros ?]
    | match goal with |- PreOrder _ => typeclasses eauto end
    | match goal with
      | |- stable _ (if ?b then _ else _) => destruct b
      | |- stable _ (match ?x with _ => _ end) => destruct x
      end ].

Definition preserves_unique (l l' : list plaid_item) : Prop :=
  unique_user_item l -> unique_user_item l'.

#[global] Instance preserves_unique_preorder : PreOrder preserves_unique.
Proof. split; unfold preserves_unique; [intros ?; auto | intros ? ? ? ? ?; auto]. Qed.

Lemma savePlaidItem_preserves_unique env u iid at' iid' iname :
  stable preserves_unique (savePlaidItem env u iid at' iid' iname).
Proof.
  intros w. unfold savePlaidItem, bind, record_call, get_items, put_items, throw.
  simpl. unfold preserves_unique, unique_user_item.
  case_bool_decide as Hin; simpl; [done|].
  rewrite map_app. simpl. intros Hnd.
  apply NoDup_app. split; [done|]. split.
  - intros k Hk Hk'. apply list_elem_of_singleton in Hk'. subst. done.
  - apply NoDup_singleton.
Qed.
#[export] Hint Resolve savePlaidItem_preserves_unique : stable_db.

Ltac unfold_actions :=
  unfold exchangePlaidPublicToken, Part003.exchangePlaidPublicToken,
    createPlaidLinkToken, getMcpSessionUserId, check_subscription,
    exchangePublicToken, createLinkToken, send_connection_email,
    getUserPlaidItems in *.

(* ------------------------------------------------------------------ *)
(** ** C1: the UNIQUE(user_id, item_id) invariant *)

(** C1. Every action that writes plaid_items (savePlaidItem, both
    exchangePlaidPublicToken server actions) and createPlaidLinkToken keep
    at most one row per (user_id, item_id): a table satisfying the
    uniqueness invariant still satisfies it afterwards. *)
Theorem plaid_items_user_item_unique (env : Env) (w : World) :
  unique_user_item (plaid_items w) ->
  (forall u iid accessToken instId instName,
      unique_user_item
        (plaid_items (savePlaidItem env u iid accessToken instId instName w).2)) /\
  (forall publicToken institution mcpToken,
      unique_user_item
        (plaid_items (exchangePlaidPublicToken env publicToken institution mcpToken w).2)) /\
  (forall u publicToken institution,
      unique_user_item
        (plaid_items (Part003.exchangePlaidPublicToken env u publicToken institution w).2)) /\
  (forall mcpToken,
      unique_user_item (plaid_items (createPlaidLinkToken env mcpToken w).2)).
Proof.
  intros Hu. repeat split; intros.
  - by apply savePlaidItem_preserves_unique.
  - revert w Hu. change (stable preserves_unique
      (exchangePlaidPublicToken env publicToken institution mcpToken)).
    unfold_actions. stable_steps.
  - revert w Hu. change (stable preserves_unique
      (Part003.exchangePlaidPublicToken env u publicToken institution)).
    unfold_actions. stable_steps.
  - revert w Hu. change (stable preserves_unique (createPlaidLinkToken env mcpToken)).
    unfold_actions. stable_steps.
Qed.

(** C1 witness: a table with one row, an exchange that returns a second
    item for the same user, and one that returns the same item again. *)
Lemma plaid_items_user_item_unique_witness :
  unique_user_item (plaid_items (sample_world [sample_item "u1" "item-1"])) /\
  unique_user_item (plaid_items
    (exchangePlaidPublicToken
       (sample_env (Ok (Some "u1")) (Ok true) [] (Ok sample_link)
          (Ok ("access-2", "item-1")) (Ok None) (Ok tt))
       "public-1" None None (sample_world [sample_item "u1" "item-1"])).2).
Proof.
  split.
  - vm_compute. repeat constructor; set_solver.
  - apply (plaid_items_user_item_unique _ (sample_world [sample_item "u1" "item-1"])).
    vm_compute. repeat constructor; set_solver.
Defined.

(* ------------------------------------------------------------------ *)
(** ** C2: the link-token call comes after all three checks *)

Ltac monad_simpl :=
  unfold bind, try_catch, record_call, lift, ret, throw, get_items, put_items in *;
  simpl in *.

Lemma truthy_some (s : option string) : truthy s = true -> exists u, s = Some u /\ u <> "".
Proof.
  destruct s as [u|]; simpl; [|done].
  intros H. exists u. split; [done|]. intros ->. done.
Qed.

(** C2. In every run of createPlaidLinkToken, Plaid's linkTokenCreate is
    called for a user only after the session check returned that user, the
    subscription check returned true and the user's active items are below
    the plan limit; the trace of external calls is then exactly session,
    subscription, link token.  With an unauthenticated bearer the action
    returns the authentication failure after the session lookup alone, so
    Plaid is never called. *)
Theorem createPlaidLinkToken_checks_before_link_call
    (env : Env) (mcpToken : option string) (w : World) :
  (forall u,
     CLinkTokenCreate u ∈ calls (createPlaidLinkToken env mcpToken w).2 ->
     CLinkTokenCreate u ∉ calls w ->
     getMcpSession env (auth_header env mcpToken) = Ok (Some u) /\ u <> "" /\
     hasActiveSubscription env u = Ok true /\
     at_or_over (length (user_items u true (plaid_items w)))
       (planLimits (plan_of (latest_subscription u (subscriptions env)))) = false /\
     calls (createPlaidLinkToken env mcpToken w).2 =
       CLinkTokenCreate u :: CHasActiveSubscription u ::
       CGetMcpSession (auth_header env mcpToken) :: calls w) /\
  (forall session,
     getMcpSession env (auth_header env mcpToken) = Ok session ->
     truthy session = false ->
     createPlaidLinkToken env mcpToken w =
       (Ok (LinkFail auth_required_message),
        mk_world (plaid_items w) (CGetMcpSession (auth_header env mcpToken) :: calls w))).
Proof.
  split.
  - intros u Hin Hnot. unfold_actions. monad_simpl.
    destruct (getMcpSession env (auth_header env mcpToken)) as [s|e] eqn:Hs;
      simpl in *; [|set_solver].
    destruct (truthy s) eqn:Ht; simpl in *; [|set_solver].
    destruct (truthy_some s Ht) as (u' & -> & Hu'). simpl in *.
    destruct (hasActiveSubscription env u') as [b|e] eqn:Hb; simpl in *; [|set_solver].
    destruct b; simpl in *; [|set_solver].
    destruct (planLimits (plan_of (latest_subscription u' (subscriptions env))))
      as [n|] eqn:Hp; simpl in *.
    + destruct (decide (n <= length (user_items u' true (plaid_items w)))) as [Hle|Hle].
      { rewrite (bool_decide_eq_true_2 _ Hle) in Hin. simpl in Hin. set_solver. }
      rewrite (bool_decide_eq_false_2 _ Hle) in *. simpl in *.
      destruct (linkTokenCreate env u') eqn:Hl; simpl in *;
      (assert (u = u') as -> by set_solver);
      (repeat split; auto; rewrite Hp; simpl; apply bool_decide_eq_false_2; exact Hle).
    + destruct (linkTokenCreate env u') eqn:Hl; simpl in *;
      (assert (u = u') as -> by set_solver); repeat split; auto; by rewrite Hp.
  - intros session Hs Ht. unfold_actions. monad_simpl.
    rewrite Hs. simpl. rewrite Ht. reflexivity.
Qed.

(** C2 witness: an authenticated, subscribed user without items (the link
    call is made after both checks), and a bearer the auth server does not
    know (no call beyond the session lookup). *)
Lemma createPlaidLinkToken_checks_before_link_call_witness :
  calls (createPlaidLinkToken
           (sample_env (Ok (Some "u1")) (Ok true) [] (Ok sample_link)
              (Ok ("access-1", "item-1")) (Ok None) (Ok tt))
           (Some "mcp-token") (sample_world [])).2 =
    [CLinkTokenCreate "u1"; CHasActiveSubscription "u1";
     CGetMcpSession (Some "Bearer mcp-token")] /\
  createPlaidLinkToken
    (sample_env (Ok None) (Ok true) [] (Ok sample_link)
       (Ok ("access-1", "item-1")) (Ok None) (Ok tt))
    None (sample_world []) =
    (Ok (LinkFail auth_required_message),
     mk_world [] [CGetMcpSession (Some "Bearer header-token")]).
Proof.
  split.
  - destruct (proj1 (createPlaidLinkToken_checks_before_link_call
                       (sample_env (Ok (Some "u1")) (Ok true) [] (Ok sample_link)
                          (Ok ("access-1", "item-1")) (Ok None) (Ok tt))
                       (Some "mcp-token") (sample_world [])) "u1")
      as (_ & _ & _ & _ & H).
    + vm_compute. left.
    + vm_compute. intros H. inversion H.
    + exact H.
  - apply (proj2 (createPlaidLinkToken_checks_before_link_call
                    (sample_env (Ok None) (Ok true) [] (Ok sample_link)
                       (Ok ("access-1", "item-1")) (Ok None) (Ok tt))
                    None (sample_world [])) None); reflexivity.
Defined.

(* ------------------------------------------------------------------ *)
(** ** C3, C4, C6: the outcome of createPlaidLinkToken for a subscribed user *)

(** The message of the quota failure for a limit value. *)
Definition quota_message (m : max_accounts_value) : string :=
  match m with
  | Limit n => account_limit_message n
  | InheritedMember => ""
  end.

Lemma createPlaidLinkToken_subscribed (env : Env) (mcpToken : option string)
    (w : World) (u : string) :
  getMcpSession env (auth_header env mcpToken) = Ok (Some u) -> u <> "" ->
  hasActiveSubscription env u = Ok true ->
  let maxAccounts := planLimits (plan_of (latest_subscription u (subscriptions env))) in
  (createPlaidLinkToken env mcpToken w).1 =
    if at_or_over (length (user_items u true (plaid_items w))) maxAccounts
    then Ok (LinkFail (quota_message maxAccounts))
    else match linkTokenCreate env u with
         | Ok d => Ok (LinkOk (link_token d) (expiration d))
         | Throw e => Ok (LinkFail ("Failed to create link token: " +:+
                                    error_message_or e "Unknown error"))
         end.
Proof.
  intros Hs Hu Hb maxAccounts. subst maxAccounts.
  unfold_actions. monad_simpl. rewrite Hs. simpl.
  rewrite (bool_decide_eq_false_2 _ Hu). simpl. rewrite Hb. simpl.
  destruct (planLimits (plan_of (latest_subscription u (subscriptions env)))) as [n|];
    simpl.
  - destruct (decide (n <= length (user_items u true (plaid_items w)))) as [Hle|Hle].
    + rewrite !(bool_decide_eq_true_2 _ Hle). reflexivity.
    + rewrite !(bool_decide_eq_false_2 _ Hle). simpl.
      destruct (linkTokenCreate env u); reflexivity.
  - destruct (linkTokenCreate env u); reflexivity.
Qed.

(** C3. For an authenticated, subscribed user the plan maps to a limit
    (basic 3, pro 10, enterprise 999999, basic when no plan row exists or
    its plan is empty), and createPlaidLinkToken compares the user's
    active items with the limit of the user's plan: at or over it the
    quota failure is returned, below it the link token Plaid issues (or
    the link failure).  In particular a basic user with 3 active items
    gets the quota failure, and a basic user with 2 active items gets the
    link token. *)
Theorem createPlaidLinkToken_basic_quota (env : Env) (mcpToken : option string)
    (w : World) (u : string) :
  getMcpSession env (auth_header env mcpToken) = Ok (Some u) -> u <> "" ->
  hasActiveSubscription env u = Ok true ->
  (planLimits "basic" = Limit 3 /\ planLimits "pro" = Limit 10 /\
   planLimits "enterprise" = Limit 999999 /\ plan_of None = "basic" /\
   (forall r, plan r = None \/ plan r = Some "" -> plan_of (Some r) = "basic")) /\
  (forall n, planLimits (plan_of (latest_subscription u (subscriptions env))) = Limit n ->
   (n <= length (user_items u true (plaid_items w)) ->
    (createPlaidLinkToken env mcpToken w).1 = Ok (LinkFail (account_limit_message n))) /\
   (length (user_items u true (plaid_items w)) < n ->
    (createPlaidLinkToken env mcpToken w).1 =
      match linkTokenCreate env u with
      | Ok d => Ok (LinkOk (link_token d) (expiration d))
      | Throw e => Ok (LinkFail ("Failed to create link token: " +:+
                                 error_message_or e "Unknown error"))
      end)) /\
  (plan_of (latest_subscription u (subscriptions env)) = "basic" ->
   (length (user_items u true (plaid_items w)) = 3 ->
    (createPlaidLinkToken env mcpToken w).1 = Ok (LinkFail (account_limit_message 3))) /\
   (length (user_items u true (plaid_items w)) = 2 ->
    forall d, linkTokenCreate env u = Ok d ->
    (createPlaidLinkToken env mcpToken w).1 = Ok (LinkOk (link_token d) (expiration d)))).
Proof.
  intros Hs Hu Hb.
  pose proof (createPlaidLinkToken_subscribed env mcpToken w u Hs Hu Hb) as Hsub.
  simpl in Hsub. split; [|split].
  - repeat split. intros r [Hr|Hr]; unfold plan_of; rewrite Hr; reflexivity.
  - intros n Hn. rewrite Hsub, Hn. simpl. split.
    + intros Hle. rewrite (bool_decide_eq_true_2 _ Hle). reflexivity.
    + intros Hlt. rewrite bool_decide_eq_false_2 by lia. reflexivity.
  - intros Hplan. rewrite Hsub. rewrite Hplan. simpl. split.
    + intros ->. reflexivity.
    + intros -> d Hl. simpl. rewrite Hl. reflexivity.
Qed.

(** C3 witness: a basic user with three items, and one with two items. *)
Lemma createPlaidLinkToken_basic_quota_witness :
  (createPlaidLinkToken
     (sample_env (Ok (Some "u1")) (Ok true) [basic_subscription "u1"] (Ok sample_link)
        (Ok ("access-1", "item-4")) (Ok None) (Ok tt))
     None (sample_world [sample_item "u1" "a"; sample_item "u1" "b"; sample_item "u1" "c"])).1
    = Ok (LinkFail (account_limit_message 3)) /\
  (createPlaidLinkToken
     (sample_env (Ok (Some "u1")) (Ok true) [] (Ok sample_link)
        (Ok ("access-1", "item-3")) (Ok None) (Ok tt))
     None (sample_world [sample_item "u1" "a"; sample_item "u1" "b"])).1
    = Ok (LinkOk (link_token sample_link) (expiration sample_link)).
Proof.
  split.
  - apply (proj1 (proj2 (proj2 (createPlaidLinkToken_basic_quota
      (sample_env (Ok (Some "u1")) (Ok true) [basic_subscription "u1"] (Ok sample_link)
         (Ok ("access-1", "item-4")) (Ok None) (Ok tt))
      None (sample_world [sample_item "u1" "a"; sample_item "u1" "b"; sample_item "u1" "c"])
      "u1" eq_refl ltac:(discriminate) eq_refl)) eq_refl)); reflexivity.
  - apply (proj2 (proj2 (proj2 (createPlaidLinkToken_basic_quota
      (sample_env (Ok (Some "u1")) (Ok true) [] (Ok sample_link)
         (Ok ("access-1", "item-3")) (Ok None) (Ok tt))
      None (sample_world [sample_item "u1" "a"; sample_item "u1" "b"])
      "u1" eq_refl ltac:(discriminate) eq_refl)) eq_refl)); reflexivity.
Defined.

Lemma is_prefix_app (p s : string) : is_prefix p (p +:+ s) = true.
Proof.
  induction p as [|a p IH]; simpl; [done|].
  rewrite bool_decide_eq_true_2 by done. exact IH.
Qed.

Lemma contains_middle (a b c : string) : contains (a +:+ b +:+ c) b = true.
Proof.
  induction a as [|x a IH]; simpl.
  - assert (Hp := is_prefix_app b c).
    destruct (b +:+ c); simpl; rewrite Hp; done.
  - rewrite IH. apply orb_true_r.
Qed.

(** C4 (counterexample). A basic user with four active items (reachable:
    exchangePlaidPublicToken has no quota check) is rejected with a message
    that mentions the limit 3 but not the count 4. *)
Lemma createPlaidLinkToken_quota_message_omits_count :
  (createPlaidLinkToken
     (sample_env (Ok (Some "u1")) (Ok true) [basic_subscription "u1"] (Ok sample_link)
        (Ok ("access-1", "item-5")) (Ok None) (Ok tt))
     None
     (sample_world [sample_item "u1" "a"; sample_item "u1" "b";
                    sample_item "u1" "c"; sample_item "u1" "d"])).1
    = Ok (LinkFail (account_limit_message 3)) /\
  length (user_items "u1" true
            (plaid_items (sample_world [sample_item "u1" "a"; sample_item "u1" "b";
                                        sample_item "u1" "c"; sample_item "u1" "d"]))) = 4 /\
  contains (account_limit_message 3) (pretty 4) = false.
Proof. vm_compute. repeat split. Qed.

(** C4 (amended). When createPlaidLinkToken rejects an authenticated,
    subscribed user at or over the limit [n] of the plan, the message is
    the fixed text with [n] in it; it depends on the limit only, not on the
    user's active-item count. *)
Theorem createPlaidLinkToken_quota_message_limit (env : Env) (mcpToken : option string)
    (w : World) (u : string) (n : nat) :
  getMcpSession env (auth_header env mcpToken) = Ok (Some u) -> u <> "" ->
  hasActiveSubscription env u = Ok true ->
  planLimits (plan_of (latest_subscription u (subscriptions env))) = Limit n ->
  n <= length (user_items u true (plaid_items w)) ->
  (createPlaidLinkToken env mcpToken w).1 = Ok (LinkFail (account_limit_message n)) /\
  contains (account_limit_message n) (pretty n) = true.
Proof.
  intros Hs Hu Hb Hp Hle. split.
  - rewrite (createPlaidLinkToken_subscribed env mcpToken w u Hs Hu Hb). simpl.
    rewrite Hp. simpl. rewrite (bool_decide_eq_true_2 _ Hle). done.
  - apply contains_middle.
Qed.

(** C4 witness: a basic user with four active items. *)
Lemma createPlaidLinkToken_quota_message_limit_witness :
  (createPlaidLinkToken
     (sample_env (Ok (Some "u1")) (Ok true) [basic_subscription "u1"] (Ok sample_link)
        (Ok ("access-1", "item-5")) (Ok None) (Ok tt))
     None
     (sample_world [sample_item "u1" "a"; sample_item "u1" "b";
                    sample_item "u1" "c"; sample_item "u1" "d"])).1
    = Ok (LinkFail (account_limit_message 3)).
Proof.
  apply (createPlaidLinkToken_quota_message_limit
     (sample_env (Ok (Some "u1")) (Ok true) [basic_subscription "u1"] (Ok sample_link)
        (Ok ("access-1", "item-5")) (Ok None) (Ok tt))
     None
     (sample_world [sample_item "u1" "a"; sample_item "u1" "b";
                    sample_item "u1" "c"; sample_item "u1" "d"]) "u1" 3);
    [reflexivity | discriminate | reflexivity | reflexivity | vm_compute; lia].
Defined.

(* ------------------------------------------------------------------ *)
(** ** C5, C7, C8: exchangePlaidPublicToken after the exchange succeeded *)

(** The row savePlaidItem inserts for an exchange. *)
Definition saved_row (env : Env) (u iid accessToken : string)
    (institution : option institution_metadata) : plaid_item :=
  mk_plaid_item u iid (encrypt env accessToken)
    (or_undefined (institution ≫= institution_id_field))
    (or_undefined (institution ≫= institution_name_field)) "active".

Section Exchange.
Context (env : Env) (publicToken : string) (institution : option institution_metadata)
        (mcpToken : option string) (w : World) (u accessToken iid : string).
Hypothesis Hs : getMcpSession env (auth_header env mcpToken) = Ok (Some u).
Hypothesis Hu : u <> "".
Hypothesis Hb : hasActiveSubscription env u = Ok true.
Hypothesis Hpt : publicToken <> "".
Hypothesis Hex : itemPublicTokenExchange env publicToken = Ok (accessToken, iid).

Lemma exchange_duplicate :
  (u, iid) ∈ map item_key (plaid_items w) ->
  exchangePlaidPublicToken env publicToken institution mcpToken w =
    (Ok (ExchangeFail duplicate_item_message),
     mk_world (plaid_items w)
       (CInsertPlaidItem u iid :: CItemPublicTokenExchange publicToken ::
        CHasActiveSubscription u :: CGetMcpSession (auth_header env mcpToken) :: calls w)).
Proof.
  intros Hin. unfold_actions. unfold savePlaidItem. monad_simpl.
  rewrite Hs. simpl. rewrite (bool_decide_eq_false_2 _ Hu). simpl. rewrite Hb. simpl.
  rewrite (bool_decide_eq_false_2 _ Hpt). simpl. rewrite Hex. simpl.
  rewrite (bool_decide_eq_true_2 _ Hin). reflexivity.
Qed.

Lemma exchange_saved :
  (u, iid) ∉ map item_key (plaid_items w) ->
  (exchangePlaidPublicToken env publicToken institution mcpToken w).1 =
    Ok (ExchangeOk iid (or_undefined (institution ≫= institution_name_field))) /\
  plaid_items (exchangePlaidPublicToken env publicToken institution mcpToken w).2 =
    (plaid_items w ++ [saved_row env u iid accessToken institution])%list.
Proof.
  intros Hnin. unfold_actions. unfold savePlaidItem. monad_simpl.
  rewrite Hs. simpl. rewrite (bool_decide_eq_false_2 _ Hu). simpl. rewrite Hb. simpl.
  rewrite (bool_decide_eq_false_2 _ Hpt). simpl. rewrite Hex. simpl.
  rewrite (bool_decide_eq_false_2 _ Hnin). simpl.
  destruct (select_user env u) as [[user|]|e]; simpl; [|done|done].
  destruct (truthy (email user) && truthy _); simpl; [|done].
  destruct (sendBankConnectionConfirmation env _ _ _ _); done.
Qed.
End Exchange.

(** The environment of an authenticated, subscribed user "u1" whose public
    token Plaid exchanges for ("access-sandbox-2", [iid]). *)
Definition exchange_env (iid : string) (user : Res (option user_row)) (send : Res unit) : Env :=
  sample_env (Ok (Some "u1")) (Ok true) [basic_subscription "u1"] (Ok sample_link)
    (Ok ("access-sandbox-2", iid)) user send.

(** C5 (counterexample). Re-connecting item "item-1" that "u1" already has
    returns the same value as a run without any duplicate in which the
    subscription helper throws an error with the database's message: the
    caller gets a generic [ExchangeFail], no distinguishable AlreadyConnected. *)
Lemma exchange_duplicate_not_distinguishable :
  (exchangePlaidPublicToken (exchange_env "item-1" (Ok None) (Ok tt))
     "public-sandbox-1" (Some sample_institution) None
     (sample_world [sample_item "u1" "item-1"])).1 =
  (exchangePlaidPublicToken
     (sample_env (Ok (Some "u1")) (Throw (JsError duplicate_item_message)) []
        (Ok sample_link) (Ok ("access-sandbox-2", "item-9")) (Ok None) (Ok tt))
     "public-sandbox-1" (Some sample_institution) None (sample_world [])).1 /\
  (exchangePlaidPublicToken (exchange_env "item-1" (Ok None) (Ok tt))
     "public-sandbox-1" (Some sample_institution) None
     (sample_world [sample_item "u1" "item-1"])).1 =
  Ok (ExchangeFail duplicate_item_message).
Proof. vm_compute. split; reflexivity. Qed.

(** C5 (amended). When the exchange succeeds for an authenticated,
    subscribed user but (user, item) is already in plaid_items, the unique
    violation is caught by the generic handler: the action returns
    [ExchangeFail] with the database error's message and the table is
    unchanged. *)
Theorem exchange_duplicate_generic_failure (env : Env) (publicToken : string)
    (institution : option institution_metadata) (mcpToken : option string) (w : World)
    (u accessToken iid : string) :
  getMcpSession env (auth_header env mcpToken) = Ok (Some u) -> u <> "" ->
  hasActiveSubscription env u = Ok true -> publicToken <> "" ->
  itemPublicTokenExchange env publicToken = Ok (accessToken, iid) ->
  (u, iid) ∈ map item_key (plaid_items w) ->
  (exchangePlaidPublicToken env publicToken institution mcpToken w).1 =
    Ok (ExchangeFail duplicate_item_message) /\
  plaid_items (exchangePlaidPublicToken env publicToken institution mcpToken w).2 =
    plaid_items w.
Proof.
  intros Hs Hu Hb Hpt Hex Hin.
  rewrite (exchange_duplicate env publicToken institution mcpToken w u accessToken iid
             Hs Hu Hb Hpt Hex Hin).
  split; reflexivity.
Qed.

(** C5 witness: "u1" connects "item-1" a second time. *)
Lemma exchange_duplicate_generic_failure_witness :
  (exchangePlaidPublicToken (exchange_env "item-1" (Ok None) (Ok tt))
     "public-sandbox-1" (Some sample_institution) None
     (sample_world [sample_item "u1" "item-1"])).1 =
    Ok (ExchangeFail duplicate_item_message).
Proof.
  apply (exchange_duplicate_generic_failure (exchange_env "item-1" (Ok None) (Ok tt))
     "public-sandbox-1" (Some sample_institution) None
     (sample_world [sample_item "u1" "item-1"]) "u1" "access-sandbox-2" "item-1");
    try reflexivity; try discriminate.
  vm_compute. left.
Defined.

(** C7. Once Plaid has exchanged the token and the new row is saved, the
    email step cannot change the outcome: whatever the user lookup and the
    email service do (answer, throw, or skip), the action returns success
    and the table is exactly the table after the insert. *)
Theorem exchange_email_failure_keeps_success (env : Env) (publicToken : string)
    (institution : option institution_metadata) (mcpToken : option string) (w : World)
    (u accessToken iid : string) :
  getMcpSession env (auth_header env mcpToken) = Ok (Some u) -> u <> "" ->
  hasActiveSubscription env u = Ok true -> publicToken <> "" ->
  itemPublicTokenExchange env publicToken = Ok (accessToken, iid) ->
  (u, iid) ∉ map item_key (plaid_items w) ->
  (exchangePlaidPublicToken env publicToken institution mcpToken w).1 =
    Ok (ExchangeOk iid (or_undefined (institution ≫= institution_name_field))) /\
  plaid_items (exchangePlaidPublicToken env publicToken institution mcpToken w).2 =
    (plaid_items w ++ [saved_row env u iid accessToken institution])%list.
Proof.
  intros Hs Hu Hb Hpt Hex Hnin.
  exact (exchange_saved env publicToken institution mcpToken w u accessToken iid
           Hs Hu Hb Hpt Hex Hnin).
Qed.

(** C7 witness: the email service throws. *)
Lemma exchange_email_failure_keeps_success_witness :
  (exchangePlaidPublicToken
     (exchange_env "item-2" (Ok (Some sample_user)) (Throw (JsError "SMTP timeout")))
     "public-sandbox-1" (Some sample_institution) None
     (sample_world [sample_item "u1" "item-1"])).1 =
    Ok (ExchangeOk "item-2" (Some "Bank")).
Proof.
  apply (exchange_email_failure_keeps_success
     (exchange_env "item-2" (Ok (Some sample_user)) (Throw (JsError "SMTP timeout")))
     "public-sandbox-1" (Some sample_institution) None
     (sample_world [sample_item "u1" "item-1"]) "u1" "access-sandbox-2" "item-2");
    try reflexivity; try discriminate.
  simpl. intros H. apply list_elem_of_singleton in H. discriminate.
Defined.

(** exchangePlaidPublicToken reaches Plaid's exchange, or changes
    plaid_items, only when the session lookup returned a non-empty userId,
    the subscription check returned true for it and the public token is
    non-empty. *)
Lemma exchange_guarded (env : Env) (publicToken : string)
    (institution : option institution_metadata) (mcpToken : option string) (w : World) :
  (CItemPublicTokenExchange publicToken ∈
     calls (exchangePlaidPublicToken env publicToken institution mcpToken w).2 /\
   CItemPublicTokenExchange publicToken ∉ calls w \/
   plaid_items (exchangePlaidPublicToken env publicToken institution mcpToken w).2
     <> plaid_items w) ->
  exists u, getMcpSession env (auth_header env mcpToken) = Ok (Some u) /\ u <> "" /\
    hasActiveSubscription env u = Ok true /\ publicToken <> "".
Proof.
  unfold_actions. monad_simpl.
  destruct (getMcpSession env (auth_header env mcpToken)) as [s|e] eqn:Hs;
    simpl; [|intros [[? ?]|?]; [set_solver|done]].
  destruct (truthy s) eqn:Ht; simpl; [|intros [[? ?]|?]; [set_solver|done]].
  destruct (truthy_some s Ht) as (u & -> & Hu). simpl.
  destruct (hasActiveSubscription env u) as [b|e] eqn:Hb;
    simpl; [|intros [[? ?]|?]; [set_solver|done]].
  destruct b; simpl; [|intros [[? ?]|?]; [set_solver|done]].
  destruct (decide (publicToken = "")) as [He|He].
  - rewrite (bool_decide_eq_true_2 _ He). simpl. intros [[? ?]|?]; [set_solver|done].
  - intros _. exists u. done.
Qed.

Lemma user_items_saved_row (env : Env) (u iid accessToken : string)
    (institution : option institution_metadata) (items : list plaid_item) :
  length (user_items u true (items ++ [saved_row env u iid accessToken institution])) =
    S (length (user_items u true items)).
Proof.
  unfold user_items. rewrite filter_app, length_app.
  rewrite filter_cons_True by (simpl; auto). simpl. lia.
Qed.

(** C8. exchangePlaidPublicToken enforces authentication and an active
    subscription, but has no quota check.  In every run, Plaid's exchange
    is called, or plaid_items changes, only after the session lookup
    returned a non-empty userId and the subscription check returned true
    for it.  For such a user the exchanged item is saved as one more active
    item whatever the number of items the user already has.  So a
    basic-plan user who already has 3 active items (the plan limit)
    connects a 4th one. *)
Theorem exchange_no_quota_check :
  (forall (env : Env) (publicToken : string) (institution : option institution_metadata)
          (mcpToken : option string) (w : World),
     (CItemPublicTokenExchange publicToken ∈
        calls (exchangePlaidPublicToken env publicToken institution mcpToken w).2 /\
      CItemPublicTokenExchange publicToken ∉ calls w \/
      plaid_items (exchangePlaidPublicToken env publicToken institution mcpToken w).2
        <> plaid_items w) ->
     exists u, getMcpSession env (auth_header env mcpToken) = Ok (Some u) /\ u <> "" /\
       hasActiveSubscription env u = Ok true) /\
  (forall (env : Env) (publicToken : string) (institution : option institution_metadata)
          (mcpToken : option string) (w : World) (u accessToken iid : string),
     getMcpSession env (auth_header env mcpToken) = Ok (Some u) -> u <> "" ->
     hasActiveSubscription env u = Ok true -> publicToken <> "" ->
     itemPublicTokenExchange env publicToken = Ok (accessToken, iid) ->
     (u, iid) ∉ map item_key (plaid_items w) ->
     (exchangePlaidPublicToken env publicToken institution mcpToken w).1 =
       Ok (ExchangeOk iid (or_undefined (institution ≫= institution_name_field))) /\
     length (user_items u true
       (plaid_items (exchangePlaidPublicToken env publicToken institution mcpToken w).2)) =
       S (length (user_items u true (plaid_items w)))) /\
  (let w := sample_world [sample_item "u1" "a"; sample_item "u1" "b"; sample_item "u1" "c"] in
   let env := exchange_env "item-4" (Ok (Some sample_user)) (Ok tt) in
   plan_of (latest_subscription "u1" (subscriptions env)) = "basic" /\
   at_or_over (length (user_items "u1" true (plaid_items w)))
     (planLimits (plan_of (latest_subscription "u1" (subscriptions env)))) = true /\
   (exchangePlaidPublicToken env "public-sandbox-1" (Some sample_institution) None w).1 =
     Ok (ExchangeOk "item-4" (Some "Bank")) /\
   length (user_items "u1" true
     (plaid_items (exchangePlaidPublicToken env "public-sandbox-1"
                     (Some sample_institution) None w).2)) = 4).
Proof.
  split; [|split].
  - intros env publicToken institution mcpToken w H.
    destruct (exchange_guarded env publicToken institution mcpToken w H)
      as (u & Hs & Hu & Hb & _).
    exists u. done.
  - intros env publicToken institution mcpToken w u accessToken iid Hs Hu Hb Hpt Hex Hnin.
    destruct (exchange_saved env publicToken institution mcpToken w u accessToken iid
                Hs Hu Hb Hpt Hex Hnin) as [Hr Hi].
    split; [exact Hr|]. rewrite Hi. apply user_items_saved_row.
  - vm_compute. repeat split.
Qed.

(** C8 witness: the enforcement part at a run that saved an item, and the
    saving part at a basic user who already has 3 items. *)
Lemma exchange_no_quota_check_witness :
  (exists u, getMcpSession (exchange_env "item-4" (Ok (Some sample_user)) (Ok tt))
               (auth_header (exchange_env "item-4" (Ok (Some sample_user)) (Ok tt)) None)
             = Ok (Some u) /\ u <> "" /\
           hasActiveSubscription (exchange_env "item-4" (Ok (Some sample_user)) (Ok tt)) u
             = Ok true) /\
  length (user_items "u1" true
    (plaid_items (exchangePlaidPublicToken (exchange_env "item-4" (Ok (Some sample_user)) (Ok tt))
                    "public-sandbox-1" (Some sample_institution) None
                    (sample_world [sample_item "u1" "a"; sample_item "u1" "b";
                                   sample_item "u1" "c"])).2)) =
    S (length (user_items "u1" true
      (plaid_items (sample_world [sample_item "u1" "a"; sample_item "u1" "b";
                                  sample_item "u1" "c"])))).
Proof.
  split.
  - apply (proj1 exchange_no_quota_check
             (exchange_env "item-4" (Ok (Some sample_user)) (Ok tt))
             "public-sandbox-1" (Some sample_institution) None
             (sample_world [sample_item "u1" "a"; sample_item "u1" "b"; sample_item "u1" "c"])).
    right. vm_compute. discriminate.
  - apply (proj1 (proj2 exchange_no_quota_check)
             (exchange_env "item-4" (Ok (Some sample_user)) (Ok tt))
             "public-sandbox-1" (Some sample_institution) None
             (sample_world [sample_item "u1" "a"; sample_item "u1" "b"; sample_item "u1" "c"])
             "u1" "access-sandbox-2" "item-4"); try reflexivity; try discriminate.
    vm_compute. intros H. repeat (apply elem_of_cons in H as [H|H]; [discriminate|]).
    apply elem_of_nil in H. exact H.
Defined.

(* ------------------------------------------------------------------ *)
(** ** C6: Plaid failures as seen by the caller *)

(** The message of the error the Plaid client (axios) throws on a 400
    answer. *)
Definition plaid_client_error : string := "Request failed with status code 400".

(** C6. A Plaid failure during link-token creation or public-token exchange
    reaches the caller of the connect-bank actions with the client error's
    message inside the returned error, while the sibling action of
    part_003 returns a fixed message for the same failure. *)
Theorem plaid_failure_message_forwarded :
  let env := sample_env (Ok (Some "u1")) (Ok true) [] (Throw (JsError plaid_client_error))
               (Throw (JsError plaid_client_error)) (Ok None) (Ok tt) in
  (createPlaidLinkToken env None (sample_world [])).1 =
    Ok (LinkFail ("Failed to create link token: " +:+ plaid_client_error)) /\
  (exchangePlaidPublicToken env "public-sandbox-1" None None (sample_world [])).1 =
    Ok (ExchangeFail ("Failed to exchange public token: " +:+ plaid_client_error)) /\
  contains ("Failed to create link token: " +:+ plaid_client_error) plaid_client_error = true /\
  contains ("Failed to exchange public token: " +:+ plaid_client_error) plaid_client_error = true /\
  (Part003.createPlaidLinkToken env "u1" (sample_world [])).1 =
    Ok (Part003.LinkTokenFail "Failed to create Plaid link token").
Proof. vm_compute. repeat split. Qed.

(* ------------------------------------------------------------------ *)
(** ** C9: the part_003 exchange action *)

(** C9. The part_003 exchangePlaidPublicToken checks nothing but the
    userId: with an empty userId it fails and touches nothing; with any
    other userId (whatever the session, subscription and item count) it
    calls Plaid's exchange and then inserts the returned item for that
    userId, and no other external call is made.  So it fails without side
    effects exactly when the userId is empty. *)
Theorem part003_exchange_no_checks (env : Env) (u publicToken : string)
    (institution : Part003.PlaidInstitution) (w : World) :
  (u = "" ->
   Part003.exchangePlaidPublicToken env u publicToken institution w =
     (Ok (Part003.ActionFail "User ID is required"), w)) /\
  (u <> "" ->
   calls (Part003.exchangePlaidPublicToken env u publicToken institution w).2 =
     (match itemPublicTokenExchange env publicToken with
      | Ok tokens => [CInsertPlaidItem u tokens.2; CItemPublicTokenExchange publicToken]
      | Throw _ => [CItemPublicTokenExchange publicToken]
      end ++ calls w)%list) /\
  ((exists e, (Part003.exchangePlaidPublicToken env u publicToken institution w).1 =
                Ok (Part003.ActionFail e)) /\
   (Part003.exchangePlaidPublicToken env u publicToken institution w).2 = w
   <-> u = "").
Proof.
  assert (Hne : u <> "" ->
    calls (Part003.exchangePlaidPublicToken env u publicToken institution w).2 =
     (match itemPublicTokenExchange env publicToken with
      | Ok tokens => [CInsertPlaidItem u tokens.2; CItemPublicTokenExchange publicToken]
      | Throw _ => [CItemPublicTokenExchange publicToken]
      end ++ calls w)%list).
  { intros Hu. unfold_actions. unfold savePlaidItem. monad_simpl.
    rewrite (bool_decide_eq_false_2 _ Hu). simpl.
    destruct (itemPublicTokenExchange env publicToken) as [[at' iid]|e]; simpl; [|done].
    case_bool_decide; done. }
  assert (Hempty : u = "" ->
    Part003.exchangePlaidPublicToken env u publicToken institution w =
      (Ok (Part003.ActionFail "User ID is required"), w)).
  { intros ->. reflexivity. }
  split; [exact Hempty|]. split; [exact Hne|]. split.
  - intros [_ Hw]. destruct (decide (u = "")) as [He|Hu]; [exact He|].
    exfalso. specialize (Hne Hu). rewrite Hw in Hne.
    assert (Hlen := f_equal length Hne). rewrite length_app in Hlen.
    destruct (itemPublicTokenExchange env publicToken); simpl in Hlen; lia.
  - intros Hu. rewrite (Hempty Hu). split; [eexists; reflexivity | reflexivity].
Qed.

(** C9 witness: an empty userId, and a userId with no session or
    subscription behind it. *)
Lemma part003_exchange_no_checks_witness :
  Part003.exchangePlaidPublicToken (exchange_env "item-1" (Ok None) (Ok tt)) ""
    "public-sandbox-1" (Part003.mk_plaid_institution None None) (sample_world []) =
    (Ok (Part003.ActionFail "User ID is required"), sample_world []) /\
  calls (Part003.exchangePlaidPublicToken
           (sample_env (Ok None) (Ok false) [] (Ok sample_link)
              (Ok ("access-sandbox-2", "item-1")) (Ok None) (Ok tt))
           "u1" "public-sandbox-1" (Part003.mk_plaid_institution None None)
           (sample_world [])).2 =
    [CInsertPlaidItem "u1" "item-1"; CItemPublicTokenExchange "public-sandbox-1"].
Proof.
  split.
  - apply (proj1 (part003_exchange_no_checks (exchange_env "item-1" (Ok None) (Ok tt)) ""
      "public-sandbox-1" (Part003.mk_plaid_institution None None) (sample_world [])));
      reflexivity.
  - apply (proj1 (proj2 (part003_exchange_no_checks
      (sample_env (Ok None) (Ok false) [] (Ok sample_link)
         (Ok ("access-sandbox-2", "item-1")) (Ok None) (Ok tt))
      "u1" "public-sandbox-1" (Part003.mk_plaid_institution None None)
      (sample_world [])))); discriminate.
Defined.

(* ------------------------------------------------------------------ *)
(** ** C10: the session cache *)

Module SessionServiceFacts.
Import SessionService.

(** The loop over a list of entries of the map with distinct keys
    deletes exactly the old sessions among them, and counts one per
    deletion. *)
Lemma cleanup_loop_filter d now (l : list (string * UserSession)) (m : Sessions) (c : nat) :
  NoDup l.*1 -> (forall k v, (k, v) ∈ l -> m !! k = Some v) ->
  let '(m', c') := cleanup_loop d now l m c in
  m' = filter (fun kv : string * UserSession =>
                 ~ (kv.1 ∈ l.*1 /\ is_old d now kv.2 = true)) m /\
  c' + size m' = c + size m.
Proof.
  revert m c. induction l as [|[k v] l IH]; intros m c Hnd Hin; simpl.
  - split; [|done]. symmetry. apply map_filter_id. intros i x _. simpl. set_solver.
  - rewrite fmap_cons in Hnd. simpl in Hnd. apply NoDup_cons in Hnd as [Hk Hnd].
    assert (Hmk : m !! k = Some v) by (apply Hin; left).
    assert (Hne : forall k' v', (k', v') ∈ l -> k' <> k).
    { intros k' v' H ->. apply Hk. apply list_elem_of_fmap. exists (k, v'). done. }
    destruct (is_old d now v) eqn:Hold.
    + specialize (IH (delete k m) (S c) Hnd).
      destruct (cleanup_loop d now l (delete k m) (S c)) as [m' c'].
      destruct IH as [-> Hc].
      { intros k' v' H. rewrite lookup_delete_ne; [by apply Hin; right|].
        exact (not_eq_sym (Hne k' v' H)). }
      split.
      * apply map_filter_strong_ext. intros i x. simpl.
        destruct (decide (i = k)) as [->|Hik].
        -- rewrite lookup_delete_eq, Hmk. split; [intros [_ ?]; discriminate|].
           intros [HQ [= <-]]. exfalso. apply HQ. split; [left|exact Hold].
        -- rewrite lookup_delete_ne by congruence. try rewrite fmap_cons; simpl.
           rewrite elem_of_cons. split.
           ++ intros [HQ Hx]. split; [|exact Hx].
              intros [[->|Hi] Ho]; [congruence|]. apply HQ. split; assumption.
           ++ intros [HQ Hx]. split; [|exact Hx].
              intros [Hi Ho]. apply HQ. split; [right; exact Hi|exact Ho].
      * rewrite map_size_delete_Some in Hc by (rewrite Hmk; eauto).
        assert (size m <> 0).
        { intros Hs. apply map_size_empty_inv in Hs. subst m.
          rewrite lookup_empty in Hmk. discriminate. }
        lia.
    + specialize (IH m c Hnd).
      destruct (cleanup_loop d now l m c) as [m' c'].
      destruct IH as [-> Hc].
      { intros k' v' H. apply Hin. by right. }
      split; [|exact Hc].
      apply map_filter_ext. intros i x Hx. simpl. try rewrite fmap_cons; simpl.
      rewrite elem_of_cons.
      destruct (decide (i = k)) as [->|Hik].
      * rewrite Hmk in Hx. injection Hx as <-. rewrite Hold.
        split; intros _ [_ ?]; discriminate.
      * split.
        -- intros HQ [[->|Hi] Ho]; [congruence|]. apply HQ. split; assumption.
        -- intros HQ [Hi Ho]. apply HQ. split; [right; exact Hi|exact Ho].
Qed.

(** So cleanupOldSessions keeps the sessions that are not old and returns
    the number it removed. *)
Lemma cleanupOldSessions_filter d now sessions :
  cleanupOldSessions d now sessions =
    (filter (fun kv : string * UserSession => is_old d now kv.2 = false) sessions,
     size sessions -
       size (filter (fun kv : string * UserSession => is_old d now kv.2 = false) sessions)).
Proof.
  unfold cleanupOldSessions.
  pose proof (cleanup_loop_filter d now (map_to_list sessions) sessions 0
                (NoDup_fst_map_to_list sessions)) as H.
  destruct (cleanup_loop d now (map_to_list sessions) sessions 0) as [m' c'].
  destruct H as [-> Hc]; [intros k v; apply elem_of_map_to_list|].
  assert (Hf : filter (fun kv : string * UserSession =>
                         ~ (kv.1 ∈ (map_to_list sessions).*1 /\ is_old d now kv.2 = true))
                      sessions =
               filter (fun kv : string * UserSession => is_old d now kv.2 = false) sessions).
  { apply map_filter_ext. intros i x Hx. simpl.
    assert (Hi : i ∈ (map_to_list sessions).*1).
    { apply list_elem_of_fmap. exists (i, x). split; [done|].
      by apply elem_of_map_to_list. }
    destruct (is_old d now x); split; intros H; try done.
    - exfalso. apply H. done.
    - intros [_ ?]. discriminate. }
  rewrite Hf in *. f_equal. lia.
Qed.

(** The access token stored under [sid], if any. *)
Definition token_of (sid : string) (sessions : Sessions) : option string :=
  accessToken <$> sessions !! sid.

Lemma getAccessToken_token_of sid now sessions :
  (getAccessToken sid now sessions).2 = token_of sid sessions.
Proof. unfold getAccessToken, token_of. by destruct (sessions !! sid). Qed.

Lemma isValidSession_token_of sid sessions :
  isValidSession sid sessions = bool_decide (is_Some (token_of sid sessions)).
Proof.
  unfold isValidSession, token_of. apply bool_decide_ext.
  destruct (sessions !! sid); simpl; split; intros [? ?]; eauto; discriminate.
Qed.

(** A step that does not remove [sid] keeps its access token. *)
Lemma step_keeps_token sid sessions op :
  removes sid sessions op = false ->
  token_of sid (step sessions op) = token_of sid sessions.
Proof.
  unfold token_of. destruct op as [g now t i|s now|s|s|s|d now]; simpl; intros Hr.
  - apply bool_decide_eq_false_1 in Hr. by rewrite lookup_insert_ne.
  - unfold getAccessToken. destruct (sessions !! s) as [x|] eqn:E; simpl; [|done].
    destruct (decide (s = sid)) as [->|Hne].
    + by rewrite lookup_insert_eq, E.
    + by rewrite lookup_insert_ne.
  - done.
  - apply bool_decide_eq_false_1 in Hr. by rewrite lookup_delete_ne.
  - done.
  - rewrite cleanupOldSessions_filter. simpl.
    destruct (sessions !! sid) as [x|] eqn:E; simpl.
    + rewrite (map_lookup_filter_Some_2 _ sessions sid x); [done|done|]. simpl. exact Hr.
    + rewrite map_lookup_filter_None_2; [done|]. left. exact E.
Qed.

Lemma run_keeps_token sid sessions ops :
  keeps sid sessions ops = true ->
  token_of sid (run sessions ops) = token_of sid sessions.
Proof.
  revert sessions. induction ops as [|op ops IH]; intros sessions Hk; simpl in *; [done|].
  apply andb_prop in Hk as [Hr Hk]. apply negb_true_iff in Hr.
  rewrite IH by exact Hk. by apply step_keeps_token.
Qed.

Lemma deleteSession_token sid sessions :
  token_of sid (deleteSession sid sessions).1 = None.
Proof. unfold token_of, deleteSession. simpl. by rewrite lookup_delete_eq. Qed.

Lemma cleanup_evicts_token sid d now sessions :
  removes sid sessions (OpCleanup d now) = true ->
  token_of sid (cleanupOldSessions d now sessions).1 = None.
Proof.
  unfold token_of. rewrite cleanupOldSessions_filter. simpl.
  destruct (sessions !! sid) as [x|] eqn:E; [|done]. intros Hold.
  rewrite map_lookup_filter_None_2; [done|]. right. intros y Hy.
  rewrite E in Hy. injection Hy as <-. simpl. rewrite Hold. done.
Qed.

End SessionServiceFacts.

(** C10. A session created for access token [t] answers [t] to
    getAccessToken and is valid after any run of operations that neither
    deletes it, nor evicts it in a cleanup sweep, nor draws its id again
    from the generator; after deleteSession, or after a cleanup sweep that
    evicts it, getAccessToken answers null and the session is invalid. *)
Theorem session_cache_faithful (sessions : SessionService.Sessions)
    (generated t i : string) (created : Z) (ops : list SessionService.SessionOp) :
  let '(sessions1, s) := SessionService.createSession generated created t i sessions in
  let later := SessionService.run sessions1 ops in
  (SessionService.keeps s sessions1 ops = true ->
   forall now,
   (SessionService.getAccessToken s now later).2 = Some t /\
   SessionService.isValidSession s later = true) /\
  (forall now,
   (SessionService.getAccessToken s now (SessionService.deleteSession s later).1).2 = None /\
   SessionService.isValidSession s (SessionService.deleteSession s later).1 = false) /\
  (forall d swept now,
   SessionService.removes s later (SessionService.OpCleanup d swept) = true ->
   (SessionService.getAccessToken s now
      (SessionService.cleanupOldSessions d swept later).1).2 = None /\
   SessionService.isValidSession s (SessionService.cleanupOldSessions d swept later).1 = false).
Proof.
  cbn [SessionService.createSession]. split; [|split].
  - intros Hk now.
    rewrite SessionServiceFacts.getAccessToken_token_of,
      SessionServiceFacts.isValidSession_token_of,
      SessionServiceFacts.run_keeps_token by exact Hk.
    unfold SessionServiceFacts.token_of. rewrite lookup_insert_eq. simpl.
    split; [done|]. first [reflexivity | apply bool_decide_eq_true_2; eauto].
  - intros now.
    rewrite SessionServiceFacts.getAccessToken_token_of,
      SessionServiceFacts.isValidSession_token_of,
      SessionServiceFacts.deleteSession_token.
    split; [done|]. first [reflexivity | apply bool_decide_eq_false_2; intros [? ?]; discriminate].
  - intros d swept now Hr.
    rewrite SessionServiceFacts.getAccessToken_token_of,
      SessionServiceFacts.isValidSession_token_of,
      (SessionServiceFacts.cleanup_evicts_token _ _ _ _ Hr).
    split; [done|]. first [reflexivity | apply bool_decide_eq_false_2; intros [? ?]; discriminate].
Qed.

(** C10 witness: a session survives a read, the creation of another
    session and a 30-day sweep ten days later. *)
Lemma session_cache_faithful_witness :
  (SessionService.getAccessToken "sid-1" 864000000%Z
     (SessionService.run
        (SessionService.createSession "sid-1" 0 "access-1" "item-1" ∅).1
        [SessionService.OpGetAccessToken "sid-1" 1000;
         SessionService.OpCreate "sid-2" 2000 "access-2" "item-2";
         SessionService.OpCleanup 30 864000000])).2 = Some "access-1".
Proof.
  pose proof (session_cache_faithful ∅ "sid-1" "access-1" "item-1" 0
    [SessionService.OpGetAccessToken "sid-1" 1000;
     SessionService.OpCreate "sid-2" 2000 "access-2" "item-2";
     SessionService.OpCleanup 30 864000000]) as H.
  cbn [SessionService.createSession] in H. destruct H as [H _].
  cbn [SessionService.createSession fst].
  apply H. vm_compute. reflexivity.
Defined.

(* ------------------------------------------------------------------ *)
(** ** More of the session cache *)

Module SessionServiceExtra.
Import SessionService SessionInfo.

(** Every stored session is filed under its own [sessionId]. *)
Definition ids_consistent (sessions : Sessions) : Prop :=
  map_Forall (fun sid s => sessionId s = sid) sessions.

Lemma step_ids_consistent sessions op :
  ids_consistent sessions -> ids_consistent (step sessions op).
Proof.
  unfold ids_consistent. intros H.
  destruct op as [g now t i|s now|s|s|s|d now]; simpl.
  - apply map_Forall_insert_2; [done|exact H].
  - unfold getAccessToken. destruct (sessions !! s) as [x|] eqn:E; simpl; [|exact H].
    apply map_Forall_insert_2; [|exact H]. simpl. exact (H s x E).
  - exact H.
  - apply map_Forall_delete. exact H.
  - exact H.
  - rewrite SessionServiceFacts.cleanupOldSessions_filter. simpl. intros k x Hx.
    apply map_lookup_filter_Some in Hx as [Hx _]. exact (H k x Hx).
Qed.

Lemma run_ids_consistent sessions ops :
  ids_consistent sessions -> ids_consistent (run sessions ops).
Proof.
  revert sessions. induction ops as [|op ops IH]; intros sessions H; simpl; [done|].
  apply IH. by apply step_ids_consistent.
Qed.

End SessionServiceExtra.

(** X1. cleanupOldSessions keeps exactly the sessions last accessed at
    most [maxAgeInDays] days before [now] and deletes all the others; the
    count it returns is the number of sessions it deleted, so it plus the
    number of sessions left is the number of sessions before. *)
Theorem cleanupOldSessions_exact (maxAgeInDays now : Z) (sessions : SessionService.Sessions) :
  let '(kept, deletedCount) := SessionService.cleanupOldSessions maxAgeInDays now sessions in
  (forall sid s, kept !! sid = Some s <->
     sessions !! sid = Some s /\
     (now - SessionService.lastAccessedAt s <= maxAgeInDays * 24 * 60 * 60 * 1000)%Z) /\
  deletedCount =
    size (filter (fun kv : string * SessionService.UserSession =>
                    (maxAgeInDays * 24 * 60 * 60 * 1000 <
                       now - SessionService.lastAccessedAt kv.2)%Z) sessions) /\
  deletedCount + size kept = size sessions.
Proof.
  rewrite SessionServiceFacts.cleanupOldSessions_filter.
  unfold SessionService.is_old. simpl.
  set (P := fun kv : string * SessionService.UserSession =>
              (maxAgeInDays * 24 * 60 * 60 * 1000 <
                 now - SessionService.lastAccessedAt kv.2)%Z).
  assert (Hk : forall (Q : string * SessionService.UserSession -> Prop)
                 (HQ : forall kv, Decision (Q kv)),
                 (forall kv, Q kv <-> ~ P kv) ->
                 size (filter Q sessions) = size (filter (fun kv => ~ P kv) sessions)).
  { intros Q HQ HQP. f_equal. apply map_filter_ext. intros i x _. apply HQP. }
  assert (Hsize : size (filter P sessions) + size (filter (fun kv => ~ P kv) sessions)
                  = size sessions).
  { rewrite <- (map_size_disj_union _ _ (map_disjoint_filter_complement P sessions)).
    by rewrite map_filter_union_complement. }
  rewrite (Hk (fun kv : string * SessionService.UserSession =>
                 bool_decide ((maxAgeInDays * 24 * 60 * 60 * 1000 <
                                now - SessionService.lastAccessedAt kv.2)%Z) = false) _).
  2: { intros kv. unfold P. rewrite bool_decide_eq_false. done. }
  split; [|split; lia].
  intros sid s. rewrite map_lookup_filter_Some. simpl.
  rewrite bool_decide_eq_false. split; intros [? ?]; split; auto; lia.
Qed.

(** X3. Reading a session's token with getAccessToken at time [now]
    refreshes it: a cleanup sweep at a time [now'] with
    [now' - now <= maxAgeInDays] days keeps the session, which still
    answers the same token. *)
Theorem getAccessToken_keeps_alive (sid : string) (now : Z) (sessions : SessionService.Sessions)
    (t : string) (maxAgeInDays now' later : Z) :
  (SessionService.getAccessToken sid now sessions).2 = Some t ->
  (now' - now <= maxAgeInDays * 24 * 60 * 60 * 1000)%Z ->
  (SessionService.getAccessToken sid later
     (SessionService.cleanupOldSessions maxAgeInDays now'
        (SessionService.getAccessToken sid now sessions).1).1).2 = Some t.
Proof.
  unfold SessionService.getAccessToken. destruct (sessions !! sid) as [s|] eqn:E;
    simpl; [|discriminate].
  intros [= <-] Hage. rewrite SessionServiceFacts.cleanupOldSessions_filter. simpl.
  rewrite (map_lookup_filter_Some_2 _ _ sid
    (SessionService.mk_user_session (SessionService.sessionId s)
       (SessionService.accessToken s) (SessionService.itemId s)
       (SessionService.createdAt s) now)).
  - reflexivity.
  - by rewrite lookup_insert_eq.
  - unfold SessionService.is_old. simpl. apply bool_decide_eq_false_2. lia.
Qed.

(** X3 witness: a token read at day 0 survives a 30-day sweep at day 30. *)
Lemma getAccessToken_keeps_alive_witness :
  (SessionService.getAccessToken "sid-1" 0
     (SessionService.createSession "sid-1" 0 "access-1" "item-1" ∅).1).2 = Some "access-1" /\
  (2592000000 - 0 <= 30 * 24 * 60 * 60 * 1000)%Z /\
  (SessionService.getAccessToken "sid-1" 2592000001
     (SessionService.cleanupOldSessions 30 2592000000
        (SessionService.getAccessToken "sid-1" 0
           (SessionService.createSession "sid-1" 0 "access-1" "item-1" ∅).1).1).1).2
    = Some "access-1".
Proof.
  split; [reflexivity|]. split; [lia|].
  apply getAccessToken_keeps_alive; [reflexivity | lia].
Defined.

(** X4. In a cache built by any sequence of the service's operations,
    getSessionInfo for a session id reports that same id as sessionId:
    every session is filed under its own id. *)
Theorem getSessionInfo_own_id (ops : list SessionService.SessionOp) (sid : string)
    (info : SessionInfo.SessionInfo) :
  SessionInfo.getSessionInfo sid (SessionService.run ∅ ops) = Some info ->
  SessionInfo.info_sessionId info = sid.
Proof.
  assert (H := SessionServiceExtra.run_ids_consistent ∅ ops (map_Forall_empty _)).
  unfold SessionInfo.getSessionInfo.
  destruct (SessionService.run ∅ ops !! sid) as [s|] eqn:E; [|discriminate].
  intros [= <-]. simpl. exact (H sid s E).
Qed.

(** X4 witness: two sessions, one read and one deleted. *)
Lemma getSessionInfo_own_id_witness :
  SessionInfo.getSessionInfo "sid-2"
    (SessionService.run ∅
       [SessionService.OpCreate "sid-1" 0 "access-1" "item-1";
        SessionService.OpCreate "sid-2" 5 "access-2" "item-2";
        SessionService.OpGetAccessToken "sid-2" 9;
        SessionService.OpDeleteSession "sid-1"]) =
    Some (SessionInfo.mk_session_info "sid-2" "item-2" 5 9) /\
  SessionInfo.info_sessionId (SessionInfo.mk_session_info "sid-2" "item-2" 5 9) = "sid-2".
Proof.
  assert (Hrun : SessionInfo.getSessionInfo "sid-2"
    (SessionService.run ∅
       [SessionService.OpCreate "sid-1" 0 "access-1" "item-1";
        SessionService.OpCreate "sid-2" 5 "access-2" "item-2";
        SessionService.OpGetAccessToken "sid-2" 9;
        SessionService.OpDeleteSession "sid-1"]) =
    Some (SessionInfo.mk_session_info "sid-2" "item-2" 5 9)) by (vm_compute; reflexivity).
  split; [exact Hrun|].
  exact (getSessionInfo_own_id _ _ _ Hrun).
Defined.

(* ------------------------------------------------------------------ *)
(** ** More of the server actions *)

Lemma try_catch_total {A} (m : M A) (f : Exn -> A) (w : World) :
  exists a, (try_catch m (fun e => ret (f e)) w).1 = Ok a.
Proof. unfold try_catch, ret. destruct (m w) as [[a|e] w']; simpl; eauto. Qed.

(** X5. None of the four bank-connection server actions (the two of
    connect-bank/actions.ts and the two of part_003) ever rejects: every
    exception of a collaborator ends as a failure result. *)
Theorem server_actions_never_reject (env : Env) (w : World) :
  (forall mcpToken, exists r, (createPlaidLinkToken env mcpToken w).1 = Ok r) /\
  (forall publicToken institution mcpToken, exists r,
     (exchangePlaidPublicToken env publicToken institution mcpToken w).1 = Ok r) /\
  (forall u, exists r, (Part003.createPlaidLinkToken env u w).1 = Ok r) /\
  (forall u publicToken institution, exists r,
     (Part003.exchangePlaidPublicToken env u publicToken institution w).1 = Ok r).
Proof.
  split; [|split; [|split]]; intros.
  - unfold createPlaidLinkToken. apply try_catch_total.
  - unfold exchangePlaidPublicToken. apply try_catch_total.
  - unfold Part003.createPlaidLinkToken. case_bool_decide; [eexists; reflexivity|].
    apply try_catch_total.
  - unfold Part003.exchangePlaidPublicToken. case_bool_decide; [eexists; reflexivity|].
    apply try_catch_total.
Qed.

#[global] Instance eq_items_preorder : PreOrder (@eq (list plaid_item)).
Proof. split; [intros ?; done | intros ? ? ? -> ->; done]. Qed.

(** X6. Neither link-token action writes the plaid_items table, whatever
    the collaborators answer. *)
Theorem link_token_actions_read_only (env : Env) (w : World) :
  (forall mcpToken, plaid_items (createPlaidLinkToken env mcpToken w).2 = plaid_items w) /\
  (forall u, plaid_items (Part003.createPlaidLinkToken env u w).2 = plaid_items w).
Proof.
  split; intros.
  - symmetry. revert w. change (stable eq (createPlaidLinkToken env mcpToken)).
    unfold_actions. stable_steps.
  - symmetry. revert w. change (stable eq (Part003.createPlaidLinkToken env u)).
    unfold Part003.createPlaidLinkToken, createLinkToken. stable_steps.
Qed.

(** The environment of a request whose own [Authorization] header is [h]. *)
Definition with_authorization (env : Env) (h : option string) : Env :=
  mk_env h (getMcpSession env) (hasActiveSubscription env) (subscriptions env)
    (linkTokenCreate env) (itemPublicTokenExchange env) (encrypt env)
    (select_user env) (sendBankConnectionConfirmation env).

(** X7. When the caller passes a non-empty mcpToken, both connect-bank
    actions ignore the request's own Authorization header: their results,
    effects and external calls are the same whatever that header is. *)
Theorem mcp_token_overrides_header (env : Env) (h : option string) (mcpToken : string)
    (w : World) :
  mcpToken <> "" ->
  createPlaidLinkToken (with_authorization env h) (Some mcpToken) w =
    createPlaidLinkToken env (Some mcpToken) w /\
  (forall publicToken institution,
     exchangePlaidPublicToken (with_authorization env h) publicToken institution
       (Some mcpToken) w =
     exchangePlaidPublicToken env publicToken institution (Some mcpToken) w).
Proof.
  intros Ht.
  assert (Hh : forall env', auth_header env' (Some mcpToken) = Some ("Bearer " +:+ mcpToken)).
  { intros env'. unfold auth_header. simpl. by rewrite (bool_decide_eq_false_2 _ Ht). }
  split; [|intros].
  - unfold createPlaidLinkToken, getMcpSessionUserId. rewrite !Hh. reflexivity.
  - unfold exchangePlaidPublicToken, getMcpSessionUserId. rewrite !Hh. reflexivity.
Qed.

(** X7 witness: an mcpToken next to a stale request header. *)
Lemma mcp_token_overrides_header_witness :
  "mcp-token-1" <> "" /\
  createPlaidLinkToken
    (with_authorization
       (sample_env (Ok (Some "u1")) (Ok true) [] (Ok sample_link)
          (Ok ("access-1", "item-1")) (Ok None) (Ok tt)) (Some "Bearer stale"))
    (Some "mcp-token-1") (sample_world []) =
  createPlaidLinkToken
    (sample_env (Ok (Some "u1")) (Ok true) [] (Ok sample_link)
       (Ok ("access-1", "item-1")) (Ok None) (Ok tt))
    (Some "mcp-token-1") (sample_world []).
Proof.
  split; [done|].
  apply (mcp_token_overrides_header _ (Some "Bearer stale") "mcp-token-1"
           (sample_world [])); done.
Defined.

(** X8. exchangePlaidPublicToken calls Plaid's itemPublicTokenExchange, or
    changes plaid_items, only after the session lookup returned a
    non-empty userId, the subscription check returned true for it and the
    public token is non-empty. *)
Theorem exchange_checks_before_plaid_call (env : Env) (publicToken : string)
    (institution : option institution_metadata) (mcpToken : option string) (w : World) :
  (CItemPublicTokenExchange publicToken ∈
     calls (exchangePlaidPublicToken env publicToken institution mcpToken w).2 /\
   CItemPublicTokenExchange publicToken ∉ calls w \/
   plaid_items (exchangePlaidPublicToken env publicToken institution mcpToken w).2
     <> plaid_items w) ->
  exists u, getMcpSession env (auth_header env mcpToken) = Ok (Some u) /\ u <> "" /\
    hasActiveSubscription env u = Ok true /\ publicToken <> "".
Proof. exact (exchange_guarded env publicToken institution mcpToken w). Qed.

(** X8 witness: a subscribed user with a public token. *)
Lemma exchange_checks_before_plaid_call_witness :
  exists u,
    getMcpSession (exchange_env "item-1" (Ok None) (Ok tt))
      (auth_header (exchange_env "item-1" (Ok None) (Ok tt)) None) = Ok (Some u) /\
    u <> "" /\
    hasActiveSubscription (exchange_env "item-1" (Ok None) (Ok tt)) u = Ok true /\
    "public-sandbox-1" <> "".
Proof.
  apply (exchange_checks_before_plaid_call (exchange_env "item-1" (Ok None) (Ok tt))
           "public-sandbox-1" None None (sample_world [])).
  right. vm_compute. discriminate.
Defined.

Lemma sorts_before_irrefl (a : option Z) : sorts_before a a = false.
Proof. destruct a; simpl; [apply bool_decide_eq_false_2; lia | done]. Qed.

Lemma sorts_before_asym (a b : option Z) :
  sorts_before a b = true -> sorts_before b a = false.
Proof.
  destruct a, b; simpl; try done.
  case_bool_decide; [|done]. intros _. apply bool_decide_eq_false_2. lia.
Qed.

Lemma sorts_before_not_trans (a b c : option Z) :
  sorts_before a b = false -> sorts_before b c = false -> sorts_before a c = false.
Proof.
  destruct a, b, c; simpl; try done.
  case_bool_decide; [done|]. case_bool_decide; [done|]. intros _ _.
  apply bool_decide_eq_false_2. lia.
Qed.

Lemma sorts_before_false (a b : option Z) :
  sorts_before a b = false ->
  (a = None -> b = None) /\ (forall x y, a = Some x -> b = Some y -> (x <= y)%Z).
Proof.
  destruct a as [x|], b as [y|]; simpl; intros H; split; try done.
  - intros x' y' [= <-] [= <-]. case_bool_decide; [done|lia].
Qed.

(** X9. The plan query returns nothing exactly when the user has no
    active or trialing subscription row; otherwise it returns one of the
    user's active or trialing rows that no other such row precedes in
    [ORDER BY period_start DESC] with NULLs first: a row without
    period_start when there is one, else one with the latest period_start. *)
Theorem latest_subscription_latest (u : string) (rows : list subscription_row) :
  (latest_subscription u rows = None <->
   forall r, r ∈ rows -> ~ (reference_id r = u /\
                           (sub_status r = "active" \/ sub_status r = "trialing"))) /\
  (forall r, latest_subscription u rows = Some r ->
   r ∈ rows /\ reference_id r = u /\
   (sub_status r = "active" \/ sub_status r = "trialing") /\
   forall r', r' ∈ rows -> reference_id r' = u ->
     (sub_status r' = "active" \/ sub_status r' = "trialing") ->
     sorts_before (period_start r') (period_start r) = false /\
     (period_start r' = None -> period_start r = None) /\
     (forall x y, period_start r' = Some x -> period_start r = Some y -> (x <= y)%Z)).
Proof.
  enough (Hmain :
    (latest_subscription u rows = None <->
     forall r, r ∈ rows -> ~ (reference_id r = u /\
                             (sub_status r = "active" \/ sub_status r = "trialing"))) /\
    (forall r, latest_subscription u rows = Some r ->
     r ∈ rows /\ reference_id r = u /\
     (sub_status r = "active" \/ sub_status r = "trialing") /\
     forall r', r' ∈ rows -> reference_id r' = u ->
       (sub_status r' = "active" \/ sub_status r' = "trialing") ->
       sorts_before (period_start r') (period_start r) = false)).
  { destruct Hmain as [Hn Hs]. split; [exact Hn|].
    intros r Hr. destruct (Hs r Hr) as (Hin & Hu & Hst & Hmax).
    split; [done|]. split; [done|]. split; [done|].
    intros r' Hr' Hu' Hs'. specialize (Hmax r' Hr' Hu' Hs').
    split; [exact Hmax|]. exact (sorts_before_false _ _ Hmax). }
  induction rows as [|r0 rs [IHn IHs]]; simpl.
  - split; [split; [intros _ r Hr; set_solver | done]|]. discriminate.
  - case_bool_decide as Hel.
    + split.
      * split; [destruct (latest_subscription u rs);
                [destruct (sorts_before _ _)|]; discriminate|].
        intros Hno. exfalso. apply (Hno r0); [set_solver | exact Hel].
      * destruct (latest_subscription u rs) as [r1|] eqn:E.
        -- destruct (IHs r1 eq_refl) as (Hin & Hu1 & Hs1 & Hmax).
           destruct (sorts_before (period_start r1) (period_start r0)) eqn:Hlt;
             intros r [= <-].
           ++ split; [set_solver|]. split; [done|]. split; [done|].
              intros r' Hr' Hu' Hs'. apply elem_of_cons in Hr' as [->|Hr'].
              ** exact (sorts_before_asym _ _ Hlt).
              ** by apply Hmax.
           ++ destruct Hel as [Hu0 Hs0]. split; [set_solver|]. split; [done|].
              split; [done|]. intros r' Hr' Hu' Hs'.
              apply elem_of_cons in Hr' as [->|Hr']; [apply sorts_before_irrefl|].
              exact (sorts_before_not_trans _ _ _ (Hmax r' Hr' Hu' Hs') Hlt).
        -- intros r [= <-]. destruct Hel as [Hu0 Hs0].
           split; [set_solver|]. split; [done|]. split; [done|].
           intros r' Hr' Hu' Hs'.
           apply elem_of_cons in Hr' as [->|Hr']; [apply sorts_before_irrefl|].
           exfalso. exact (proj1 IHn eq_refl r' Hr' (conj Hu' Hs')).
    + split.
      * rewrite IHn. split.
        -- intros H r Hr. apply elem_of_cons in Hr as [->|Hr]; [exact Hel|].
           by apply H.
        -- intros H r Hr. apply H. set_solver.
      * intros r Hr. destruct (IHs r Hr) as (Hin & Hu1 & Hs1 & Hmax).
        split; [set_solver|]. split; [done|]. split; [done|].
        intros r' Hr' Hu' Hs'. apply elem_of_cons in Hr' as [->|Hr'].
        -- exfalso. exact (Hel (conj Hu' Hs')).
        -- by apply Hmax.
Qed.

(** X9 witness: a cancelled row, an old active row, a newer trialing row
    and an active row without period_start, of the same user: the row
    without period_start comes first. *)
Lemma latest_subscription_latest_witness :
  latest_subscription "u1"
    [mk_subscription_row "u1" "canceled" (Some "enterprise") (Some 30%Z);
     mk_subscription_row "u1" "active" (Some "basic") (Some 10%Z);
     mk_subscription_row "u1" "active" (Some "basic") None;
     mk_subscription_row "u1" "trialing" (Some "pro") (Some 20%Z)] =
    Some (mk_subscription_row "u1" "active" (Some "basic") None) /\
  mk_subscription_row "u1" "active" (Some "basic") None ∈
    [mk_subscription_row "u1" "canceled" (Some "enterprise") (Some 30%Z);
     mk_subscription_row "u1" "active" (Some "basic") (Some 10%Z);
     mk_subscription_row "u1" "active" (Some "basic") None;
     mk_subscription_row "u1" "trialing" (Some "pro") (Some 20%Z)].
Proof.
  assert (H : latest_subscription "u1"
    [mk_subscription_row "u1" "canceled" (Some "enterprise") (Some 30%Z);
     mk_subscription_row "u1" "active" (Some "basic") (Some 10%Z);
     mk_subscription_row "u1" "active" (Some "basic") None;
     mk_subscription_row "u1" "trialing" (Some "pro") (Some 20%Z)] =
    Some (mk_subscription_row "u1" "active" (Some "basic") None))
    by (vm_compute; reflexivity).
  split; [exact H|].
  exact (proj1 (proj2 (latest_subscription_latest _ _) _ H)).
Defined.

(* ------------------------------------------------------------------ *)
(** ** mcp-auth.ts *)

(** X10. requireMcpAuth rejects with 'Authentication required. Please
    authenticate with ChatGPT.' exactly when isAuthenticated answers
    false, and otherwise resolves with the session getOptionalMcpAuth
    returns.  A resolved session comes from a session row of the auth
    server with a non-empty userId, and its sessionId is that row's
    accessToken; when the auth server throws, the request counts as
    unauthenticated. *)
Theorem requireMcpAuth_agrees {Headers : Type}
    (auth_api : Headers -> Res (option McpAuth.mcp_session_data)) (headers : Headers) :
  (McpAuth.requireMcpAuth auth_api headers = Throw (JsError McpAuth.auth_required_mcp_message)
   <-> McpAuth.isAuthenticated auth_api headers = false) /\
  (forall s, McpAuth.requireMcpAuth auth_api headers = Ok s <->
             McpAuth.getOptionalMcpAuth auth_api headers = Some s) /\
  (forall s, McpAuth.requireMcpAuth auth_api headers = Ok s ->
   exists sd, auth_api headers = Ok (Some sd) /\ McpAuth.sd_userId sd = Some (McpAuth.userId s) /\
     McpAuth.userId s <> "" /\ McpAuth.sessionId s = McpAuth.sd_accessToken sd) /\
  (forall e, auth_api headers = Throw e ->
   McpAuth.requireMcpAuth auth_api headers = Throw (JsError McpAuth.auth_required_mcp_message)).
Proof.
  unfold McpAuth.requireMcpAuth, McpAuth.isAuthenticated, McpAuth.getOptionalMcpAuth,
    McpAuth.getMcpSession.
  destruct (auth_api headers) as [[sd|]|e] eqn:E.
  - destruct (truthy (McpAuth.sd_userId sd)) eqn:Ht; simpl.
    + destruct (truthy_some _ Ht) as (u & Hu & Hne). rewrite Hu. simpl.
      split; [split; discriminate|]. split; [intros s; split; congruence|].
      split; [|intros e' He'; discriminate].
      intros s [= <-]. exists sd. simpl. done.
    + split; [done|]. split; [intros s; split; discriminate|].
      split; [intros s; discriminate|]. intros e' He'; discriminate.
  - split; [done|]. split; [intros s; split; discriminate|].
    split; [intros s; discriminate|]. intros e' He'; discriminate.
  - split; [done|]. split; [intros s; split; discriminate|].
    split; [intros s; discriminate|]. done.
Qed.

(** X10 witness: an auth server that knows the bearer. *)
Lemma requireMcpAuth_agrees_witness :
  McpAuth.requireMcpAuth
    (fun h : string => if bool_decide (h = "Bearer t1")
                       then Ok (Some (McpAuth.mk_mcp_session_data (Some "u1") "t1"))
                       else Ok None) "Bearer t1" =
    Ok (McpAuth.mk_mcp_session "u1" "t1") /\
  exists sd, Ok (Some (McpAuth.mk_mcp_session_data (Some "u1") "t1")) = Ok (Some sd) /\
    McpAuth.sd_userId sd = Some "u1" /\ "u1" <> "" /\ "t1" = McpAuth.sd_accessToken sd.
Proof.
  assert (H : McpAuth.requireMcpAuth
    (fun h : string => if bool_decide (h = "Bearer t1")
                       then Ok (Some (McpAuth.mk_mcp_session_data (Some "u1") "t1"))
                       else Ok None) "Bearer t1" =
    Ok (McpAuth.mk_mcp_session "u1" "t1")) by (vm_compute; reflexivity).
  split; [exact H|].
  exact (proj1 (proj2 (proj2 (requireMcpAuth_agrees _ "Bearer t1"))) _ H).
Defined.

(* ------------------------------------------------------------------ *)
(** ** metadata.ts *)

Module MetadataFacts.
Import Metadata.

Lemma js_or_truthy a b : js_truthy a = true -> js_or a b = a.
Proof. unfold js_or. by intros ->. Qed.

Lemma js_or_falsy a b : js_truthy a = false -> js_or a b = b.
Proof. unfold js_or. by intros ->. Qed.

Lemma js_or_truthy_either a b : js_truthy b = true -> js_truthy (js_or a b) = true.
Proof. unfold js_or. by destruct (js_truthy a) eqn:E. Qed.

Lemma default_location_truthy : js_truthy default_location = true.
Proof. reflexivity. Qed.

End MetadataFacts.

(** The shape of the metadata extractOpenAIMetadata returns. *)
Lemma extract_shape (params r : Metadata.JsVal) :
  Metadata.extractOpenAIMetadata params = Some r ->
  exists ua lc loc sub,
    r = Metadata.JObj [("openai/userAgent", ua); ("openai/locale", lc);
                       ("openai/userLocation", loc); ("openai/subject", sub)] /\
    Forall (fun v => Metadata.js_truthy v = true) [ua; lc; loc; sub] /\
    Forall (fun kv : string * Metadata.JsVal =>
              Metadata.js_truthy (Metadata.get (Metadata.get params "_meta") kv.1) = true ->
              kv.2 = Metadata.get (Metadata.get params "_meta") kv.1)
      [("openai/userAgent", ua); ("openai/locale", lc);
       ("openai/userLocation", loc); ("openai/subject", sub)].
Proof.
  unfold Metadata.extractOpenAIMetadata.
  set (meta := Metadata.get params "_meta").
  destruct (negb (Metadata.js_truthy meta) || negb (Metadata.typeof_object meta));
    [discriminate|].
  destruct (negb (Metadata.js_truthy _)); [discriminate|].
  intros [= <-]. do 4 eexists. split; [reflexivity|]. split.
  - repeat constructor; simpl;
      apply MetadataFacts.js_or_truthy_either; reflexivity.
  - repeat constructor; simpl; intros Ht; by apply MetadataFacts.js_or_truthy.
Qed.

(** X11. When extractOpenAIMetadata returns metadata, it is an object
    with exactly the four keys openai/userAgent, openai/locale,
    openai/userLocation and openai/subject, in this order; every value is
    truthy, and each field that is truthy in [params._meta] is passed on
    unchanged (the others get the defaults). *)
Theorem extractOpenAIMetadata_shape (params r : Metadata.JsVal) :
  Metadata.extractOpenAIMetadata params = Some r ->
  exists ua lc loc sub,
    r = Metadata.JObj [("openai/userAgent", ua); ("openai/locale", lc);
                       ("openai/userLocation", loc); ("openai/subject", sub)] /\
    Forall (fun v => Metadata.js_truthy v = true) [ua; lc; loc; sub] /\
    Forall (fun kv : string * Metadata.JsVal =>
              Metadata.js_truthy (Metadata.get (Metadata.get params "_meta") kv.1) = true ->
              kv.2 = Metadata.get (Metadata.get params "_meta") kv.1)
      [("openai/userAgent", ua); ("openai/locale", lc);
       ("openai/userLocation", loc); ("openai/subject", sub)].
Proof. exact (extract_shape params r). Qed.

(** X11 witness: a [_meta] with a locale and a subject only. *)
Lemma extractOpenAIMetadata_shape_witness :
  Metadata.extractOpenAIMetadata
    (Metadata.JObj [("_meta", Metadata.JObj [("openai/locale", Metadata.JStr "fr-FR");
                                             ("openai/subject", Metadata.JStr "v1/abc")])]) =
    Some (Metadata.JObj [("openai/userAgent", Metadata.JStr "unknown");
                         ("openai/locale", Metadata.JStr "fr-FR");
                         ("openai/userLocation", Metadata.default_location);
                         ("openai/subject", Metadata.JStr "v1/abc")]) /\
  exists ua lc loc sub,
    Metadata.JObj [("openai/userAgent", Metadata.JStr "unknown");
                   ("openai/locale", Metadata.JStr "fr-FR");
                   ("openai/userLocation", Metadata.default_location);
                   ("openai/subject", Metadata.JStr "v1/abc")] =
    Metadata.JObj [("openai/userAgent", ua); ("openai/locale", lc);
                   ("openai/userLocation", loc); ("openai/subject", sub)] /\
    Forall (fun v => Metadata.js_truthy v = true) [ua; lc; loc; sub] /\
    Forall (fun kv : string * Metadata.JsVal =>
              Metadata.js_truthy (Metadata.get (Metadata.get
                (Metadata.JObj [("_meta", Metadata.JObj [("openai/locale", Metadata.JStr "fr-FR");
                   ("openai/subject", Metadata.JStr "v1/abc")])]) "_meta") kv.1) = true ->
              kv.2 = Metadata.get (Metadata.get
                (Metadata.JObj [("_meta", Metadata.JObj [("openai/locale", Metadata.JStr "fr-FR");
                   ("openai/subject", Metadata.JStr "v1/abc")])]) "_meta") kv.1)
      [("openai/userAgent", ua); ("openai/locale", lc);
       ("openai/userLocation", loc); ("openai/subject", sub)].
Proof.
  assert (H : Metadata.extractOpenAIMetadata
    (Metadata.JObj [("_meta", Metadata.JObj [("openai/locale", Metadata.JStr "fr-FR");
                                             ("openai/subject", Metadata.JStr "v1/abc")])]) =
    Some (Metadata.JObj [("openai/userAgent", Metadata.JStr "unknown");
                         ("openai/locale", Metadata.JStr "fr-FR");
                         ("openai/userLocation", Metadata.default_location);
                         ("openai/subject", Metadata.JStr "v1/abc")])) by (vm_compute; reflexivity).
  split; [exact H|].
  exact (extractOpenAIMetadata_shape _ _ H).
Defined.

(** X12. Extraction is idempotent: passing extracted metadata back as
    the [_meta] of a tool call extracts the same metadata again. *)
Theorem extractOpenAIMetadata_idempotent (params r : Metadata.JsVal) :
  Metadata.extractOpenAIMetadata params = Some r ->
  Metadata.extractOpenAIMetadata (Metadata.JObj [("_meta", r)]) = Some r.
Proof.
  intros H. destruct (extract_shape params r H)
    as (ua & lc & loc & sub & -> & Ht & _).
  repeat match goal with
         | Hf : Forall _ (_ :: _) |- _ => apply Forall_cons in Hf as [? Hf]
         end.
  unfold Metadata.extractOpenAIMetadata. simpl.
  repeat match goal with
         | Hv : Metadata.js_truthy ?v = true |- context [Metadata.js_or ?v ?b] =>
             rewrite (MetadataFacts.js_or_truthy v b Hv)
         end.
  match goal with Hua : Metadata.js_truthy ua = true |- _ => rewrite Hua end.
  reflexivity.
Qed.

(** X12 witness: the metadata of a call with only a user agent. *)
Lemma extractOpenAIMetadata_idempotent_witness :
  Metadata.extractOpenAIMetadata
    (Metadata.JObj [("_meta", Metadata.JObj [("openai/userAgent", Metadata.JStr "ChatGPT/1.0")])]) =
    Some (Metadata.JObj [("openai/userAgent", Metadata.JStr "ChatGPT/1.0");
                         ("openai/locale", Metadata.JStr "en-US");
                         ("openai/userLocation", Metadata.default_location);
                         ("openai/subject", Metadata.JStr "unknown")]) /\
  Metadata.extractOpenAIMetadata
    (Metadata.JObj [("_meta", Metadata.JObj [("openai/userAgent", Metadata.JStr "ChatGPT/1.0");
                         ("openai/locale", Metadata.JStr "en-US");
                         ("openai/userLocation", Metadata.default_location);
                         ("openai/subject", Metadata.JStr "unknown")])]) =
    Some (Metadata.JObj [("openai/userAgent", Metadata.JStr "ChatGPT/1.0");
                         ("openai/locale", Metadata.JStr "en-US");
                         ("openai/userLocation", Metadata.default_location);
                         ("openai/subject", Metadata.JStr "unknown")]).
Proof.
  assert (H : Metadata.extractOpenAIMetadata
    (Metadata.JObj [("_meta", Metadata.JObj [("openai/userAgent", Metadata.JStr "ChatGPT/1.0")])]) =
    Some (Metadata.JObj [("openai/userAgent", Metadata.JStr "ChatGPT/1.0");
                         ("openai/locale", Metadata.JStr "en-US");
                         ("openai/userLocation", Metadata.default_location);
                         ("openai/subject", Metadata.JStr "unknown")])) by (vm_compute; reflexivity).
  split; [exact H|].
  exact (extractOpenAIMetadata_idempotent _ _ H).
Defined.

(* ------------------------------------------------------------------ *)
(** ** scripts/migrate.ts *)

Module MigrateFacts.
Import Migrate.

Section Facts.
Context {D : Type} (readFileSync : string -> Res string) (query : string -> D -> Res D).

Lemma run_files_spec (executedSet files : list string) (db : MigDb D) (ran : nat) :
  let '(db', r) := run_files readFileSync query executedSet files db ran in
  exists p, applied db' = (applied db ++ p)%list /\
    replay readFileSync query p (schema db) = Ok (schema db') /\
    match r with
    | Ok n => p = filter (fun f => f ∉ executedSet) files /\ n = ran + length p
    | Throw e => exists f rest,
        filter (fun f => f ∉ executedSet) files = (p ++ f :: rest)%list /\
        replay readFileSync query [f] (schema db') = Throw e
    end.
Proof.
  revert db ran. induction files as [|f fs IH]; intros db ran; simpl.
  - exists []. rewrite app_nil_r. split; [done|]. split; [done|]. simpl. split; [done|lia].
  - destruct (decide (f ∈ executedSet)) as [Hin|Hin].
    + rewrite (bool_decide_eq_true_2 _ Hin), filter_cons_False by (intros Hn; exact (Hn Hin)).
      apply IH.
    + rewrite (bool_decide_eq_false_2 _ Hin), filter_cons_True by exact Hin.
      destruct (readFileSync f) as [sql|e] eqn:Hr.
      * destruct (query sql (schema db)) as [s'|e] eqn:Hq.
        -- specialize (IH (mk_mig_db D (applied db ++ [f])%list s') (S ran)).
           destruct (run_files readFileSync query executedSet fs _ (S ran)) as [db' r].
           destruct IH as (p & Ha & Hp & Hr').
           exists (f :: p). simpl in Ha. rewrite Ha, <- app_assoc. split; [done|].
           split; [simpl; rewrite Hr, Hq; exact Hp|].
           destruct r as [n|e].
           ++ destruct Hr' as [-> ->]. simpl. split; [done|lia].
           ++ destruct Hr' as (g & rest & Hf & Hg). exists g, rest. rewrite Hf. done.
        -- exists []. rewrite app_nil_r. split; [done|]. split; [done|].
           exists f, (filter (fun f => f ∉ executedSet) fs). simpl. rewrite Hr, Hq. done.
      * exists []. rewrite app_nil_r. split; [done|]. split; [done|].
        exists f, (filter (fun f => f ∉ executedSet) fs). simpl. rewrite Hr. done.
Qed.

Lemma run_files_all_executed (executedSet files : list string) (db : MigDb D) (ran : nat) :
  (forall f, f ∈ files -> f ∈ executedSet) ->
  run_files readFileSync query executedSet files db ran = (db, Ok ran).
Proof.
  revert db ran. induction files as [|f fs IH]; intros db ran Hall; simpl; [done|].
  rewrite bool_decide_eq_true_2 by (apply Hall; set_solver).
  apply IH. intros g Hg. apply Hall. set_solver.
Qed.

End Facts.

Lemma migration_files_elem (dir : list string) (f : string) :
  f ∈ migration_files dir <-> f ∈ dir /\ ends_with ".sql" f = true.
Proof.
  unfold migration_files. rewrite (merge_sort_Permutation String.le _).
  rewrite list_elem_of_filter. tauto.
Qed.

End MigrateFacts.

(** The outcome of a run of runMigrations, in terms of the pending
    migrations. *)
Lemma runMigrations_outcome {D : Type} (readFileSync : string -> Res string)
    (query : string -> D -> Res D) (dir : list string) (db : Migrate.MigDb D) :
  let '(db', out) := Migrate.runMigrations readFileSync query dir db in
  exists p, Migrate.applied db' = (Migrate.applied db ++ p)%list /\
    Migrate.replay readFileSync query p (Migrate.schema db) = Ok (Migrate.schema db') /\
    Forall (fun f => f ∈ dir /\ Migrate.ends_with ".sql" f = true /\
                     f ∉ Migrate.applied db) p /\
    match out with
    | Migrate.UpToDate => p = [] /\ Migrate.pending dir db = []
    | Migrate.RanMigrations n => p = Migrate.pending dir db /\ n = length p /\ n <> 0
    | Migrate.Exit1 e => exists f rest,
        Migrate.pending dir db = (p ++ f :: rest)%list /\
        Migrate.replay readFileSync query [f] (Migrate.schema db') = Throw e
    end.
Proof.
  unfold Migrate.runMigrations, Migrate.pending.
  pose proof (MigrateFacts.run_files_spec readFileSync query (Migrate.applied db)
                (Migrate.migration_files dir) db 0) as H.
  destruct (Migrate.run_files readFileSync query (Migrate.applied db)
              (Migrate.migration_files dir) db 0) as [db' r].
  destruct H as (p & Ha & Hp & Hr).
  assert (Hsub : forall rest, filter (fun f => f ∉ Migrate.applied db)
                    (Migrate.migration_files dir) = (p ++ rest)%list ->
                 Forall (fun f => f ∈ dir /\ Migrate.ends_with ".sql" f = true /\
                                  f ∉ Migrate.applied db) p).
  { intros rest Hf. apply Forall_forall. intros f Hf'.
    assert (Hin : f ∈ filter (fun f => f ∉ Migrate.applied db) (Migrate.migration_files dir))
      by (rewrite Hf; set_solver).
    apply list_elem_of_filter in Hin as [Hn Hin].
    apply MigrateFacts.migration_files_elem in Hin as [? ?]. done. }
  destruct r as [n|e].
  - destruct Hr as [Hpe ->].
    assert (Hall := Hsub []). rewrite app_nil_r in Hall. specialize (Hall (eq_sym Hpe)).
    destruct p as [|x p'] eqn:Ep; simpl; exists p; subst p.
    + done.
    + split; [done|]. split; [done|]. split; [done|]. split; [done|]. split; [done|lia].
  - destruct Hr as (f & rest & Hf & Hg). simpl. exists p.
    split; [done|]. split; [done|]. split; [by apply (Hsub (f :: rest))|].
    exists f, rest. done.
Qed.

(** X13. When connecting, creating the migrations table, listing the
    directory, reading the recorded names and the BEGIN, INSERT and COMMIT
    queries all succeed (the runner's model takes them to), a run of
    runMigrations executes and records, in order, a prefix of the pending
    migrations: the .sql files of the directory, sorted, that are not yet
    in the migrations table.  Each recorded file's SQL was applied, and no
    other change reaches the schema (a failing migration is rolled back).
    The run reports 'up to date' when nothing was pending, the number of
    migrations run when all pending ones succeeded, and otherwise exits
    with status 1 right after the first pending file whose SQL fails,
    which is not recorded; every recorded file is a .sql file of the
    directory that was not recorded before. *)
Theorem runMigrations_prefix {D : Type} (readFileSync : string -> Res string)
    (query : string -> D -> Res D) (dir : list string) (db : Migrate.MigDb D) :
  let '(db', out) := Migrate.runMigrations readFileSync query dir db in
  exists p, Migrate.applied db' = (Migrate.applied db ++ p)%list /\
    Migrate.replay readFileSync query p (Migrate.schema db) = Ok (Migrate.schema db') /\
    Forall (fun f => f ∈ dir /\ Migrate.ends_with ".sql" f = true /\
                     f ∉ Migrate.applied db) p /\
    match out with
    | Migrate.UpToDate => p = [] /\ Migrate.pending dir db = []
    | Migrate.RanMigrations n => p = Migrate.pending dir db /\ n = length p /\ n <> 0
    | Migrate.Exit1 e => exists f rest,
        Migrate.pending dir db = (p ++ f :: rest)%list /\
        Migrate.replay readFileSync query [f] (Migrate.schema db') = Throw e
    end.
Proof. exact (runMigrations_outcome readFileSync query dir db). Qed.

(** X14. A run that did not exit with status 1 leaves nothing pending: a
    second run with the same directory executes nothing, changes nothing
    and reports that all migrations are up to date. *)
Theorem runMigrations_idempotent {D : Type} (readFileSync : string -> Res string)
    (query : string -> D -> Res D) (dir : list string) (db : Migrate.MigDb D) :
  let '(db', out) := Migrate.runMigrations readFileSync query dir db in
  (forall e, out <> Migrate.Exit1 e) ->
  Migrate.runMigrations readFileSync query dir db' = (db', Migrate.UpToDate).
Proof.
  pose proof (runMigrations_outcome readFileSync query dir db) as H.
  destruct (Migrate.runMigrations readFileSync query dir db) as [db' out].
  destruct H as (p & Ha & _ & _ & Hout). intros Hne.
  assert (Hp : p = Migrate.pending dir db).
  { destruct out as [|n|e]; [destruct Hout as [-> ->]; done | by destruct Hout as [-> _] |].
    exfalso. exact (Hne e eq_refl). }
  unfold Migrate.runMigrations.
  rewrite MigrateFacts.run_files_all_executed; [reflexivity|].
  intros f Hf. rewrite Ha, Hp. apply elem_of_app.
  destruct (decide (f ∈ Migrate.applied db)) as [Hin|Hin]; [by left|right].
  unfold Migrate.pending. apply list_elem_of_filter. done.
Qed.

(** X14 witness: a directory with two migrations (one already recorded)
    and a README, and a database that accepts every statement. *)
Lemma runMigrations_idempotent_witness :
  Migrate.runMigrations (fun f => Ok ("-- " +:+ f)) (fun sql (s : list string) => Ok (sql :: s))
    ["002_add_items.sql"; "README.md"; "001_init.sql"]
    (Migrate.mk_mig_db (list string) ["001_init.sql"] []) =
    (Migrate.mk_mig_db (list string) ["001_init.sql"; "002_add_items.sql"]
       ["-- 002_add_items.sql"], Migrate.RanMigrations 1) /\
  Migrate.runMigrations (fun f => Ok ("-- " +:+ f)) (fun sql (s : list string) => Ok (sql :: s))
    ["002_add_items.sql"; "README.md"; "001_init.sql"]
    (Migrate.mk_mig_db (list string) ["001_init.sql"; "002_add_items.sql"]
       ["-- 002_add_items.sql"]) =
    (Migrate.mk_mig_db (list string) ["001_init.sql"; "002_add_items.sql"]
       ["-- 002_add_items.sql"], Migrate.UpToDate).
Proof.
  assert (H := runMigrations_idempotent (fun f => Ok ("-- " +:+ f))
                 (fun sql (s : list string) => Ok (sql :: s))
                 ["002_add_items.sql"; "README.md"; "001_init.sql"]
                 (Migrate.mk_mig_db (list string) ["001_init.sql"] [])).
  assert (Hrun : Migrate.runMigrations (fun f => Ok ("-- " +:+ f))
    (fun sql (s : list string) => Ok (sql :: s))
    ["002_add_items.sql"; "README.md"; "001_init.sql"]
    (Migrate.mk_mig_db (list string) ["001_init.sql"] []) =
    (Migrate.mk_mig_db (list string) ["001_init.sql"; "002_add_items.sql"]
       ["-- 002_add_items.sql"], Migrate.RanMigrations 1)) by (vm_compute; reflexivity).
  rewrite Hrun in H. split; [exact Hrun|].
  apply H. intros e. discriminate.
Defined.

(* ------------------------------------------------------------------ *)
(** ** ItemsService *)

Module ItemsFacts.
Import ItemsService.

Lemma getItem_Some itemId uid t item :
  getItem itemId uid t = Some item <-> t !! itemId = Some item /\ userId item = uid.
Proof.
  unfold getItem. destruct (t !! itemId) as [x|]; [|split; [discriminate|intros [? ?]; discriminate]].
  case_bool_decide as Hu; split.
  - intros [= <-]. done.
  - intros [[= <-] _]. done.
  - discriminate.
  - intros [[= <-] ?]. done.
Qed.

Lemma getItem_None itemId uid t :
  getItem itemId uid t = None <->
  t !! itemId = None \/ exists item, t !! itemId = Some item /\ userId item <> uid.
Proof.
  unfold getItem. destruct (t !! itemId) as [x|].
  - case_bool_decide as Hu; split.
    + discriminate.
    + intros [?|(y & [= <-] & Hy)]; [discriminate | done].
    + intros _. right. eauto.
    + done.
  - split; [by left | done].
Qed.

Lemma count_delete uid st t k item :
  t !! k = Some item -> matches uid st item ->
  countUserItems uid st (delete k t) = countUserItems uid st t - 1.
Proof.
  intros Hk Hm. unfold countUserItems. rewrite map_filter_delete.
  rewrite map_size_delete_Some; [lia|].
  exists item. apply map_lookup_filter_Some. done.
Qed.

Lemma count_insert_new uid st t k item :
  t !! k = None ->
  countUserItems uid st (<[k := item]> t) =
    (if decide (matches uid st item) then S (countUserItems uid st t)
     else countUserItems uid st t).
Proof.
  intros Hk. unfold countUserItems. destruct (decide (matches uid st item)) as [Hm|Hm].
  - rewrite map_filter_insert_True by exact Hm. apply map_size_insert_None.
    apply map_lookup_filter_None. by left.
  - rewrite map_filter_insert_False by exact Hm. by rewrite delete_id.
Qed.

End ItemsFacts.

(** A table with one active item of user alice. *)
Definition alice_note : ItemsService.user_item :=
  ItemsService.mk_user_item "item-1" "alice" "Note" None None 0 "active" 1 1 None None.

Definition alice_table : ItemsService.Table := {[ "item-1" := alice_note ]}.

(** A mutation of a missing item or of another user's item. *)
Lemma mutate_denied (m : ItemsService.ItemMutation) (itemId uid : string)
    (t : ItemsService.Table) :
  (t !! itemId = None \/
   exists item, t !! itemId = Some item /\ ItemsService.userId item <> uid) ->
  ItemsService.mutate m itemId uid t = (Throw (JsError ItemsService.not_found_message), t).
Proof.
  intros H. apply ItemsFacts.getItem_None in H.
  destruct m; simpl; unfold ItemsService.updateItem, ItemsService.archiveItem,
    ItemsService.deleteItem, ItemsService.restoreItem, ItemsService.hardDeleteItem,
    ItemsService.update_owned; by rewrite H.
Qed.

(** X15. Every mutating method of ItemsService (updateItem, archiveItem,
    deleteItem, restoreItem, hardDeleteItem) called with an item id that
    does not exist, or that belongs to another user, throws 'Item not
    found or access denied' and leaves the table unchanged. *)
Theorem items_access_denied (m : ItemsService.ItemMutation) (itemId uid : string)
    (t : ItemsService.Table) :
  (t !! itemId = None \/
   exists item, t !! itemId = Some item /\ ItemsService.userId item <> uid) ->
  ItemsService.mutate m itemId uid t = (Throw (JsError ItemsService.not_found_message), t).
Proof. exact (mutate_denied m itemId uid t). Qed.

(** X15 witness: another user's item and a missing id. *)
Lemma items_access_denied_witness :
  ItemsService.mutate ItemsService.MHardDelete "item-1" "mallory"
    alice_table =
    (Throw (JsError ItemsService.not_found_message),
     alice_table).
Proof.
  apply items_access_denied. right. exists alice_note. split; [apply lookup_singleton_eq|done].
Defined.

(** X16. A mutation that succeeds was made by the item's owner on an
    existing row, and touches no other row.  The soft mutations (update,
    archive, delete, restore) store and return the new row, which keeps
    the row's id, owner and createdAt; hardDeleteItem returns the old row
    and removes it. *)
Theorem items_mutation_frame (m : ItemsService.ItemMutation) (itemId uid : string)
    (t : ItemsService.Table) (item' : ItemsService.user_item) :
  (ItemsService.mutate m itemId uid t).1 = Ok item' ->
  exists item, t !! itemId = Some item /\ ItemsService.userId item = uid /\
    (forall k, k <> itemId -> (ItemsService.mutate m itemId uid t).2 !! k = t !! k) /\
    match m with
    | ItemsService.MHardDelete =>
        item' = item /\ (ItemsService.mutate m itemId uid t).2 !! itemId = None
    | _ =>
        (ItemsService.mutate m itemId uid t).2 !! itemId = Some item' /\
        ItemsService.id item' = ItemsService.id item /\ ItemsService.userId item' = uid /\
        ItemsService.createdAt item' = ItemsService.createdAt item
    end.
Proof.
  destruct (ItemsService.getItem itemId uid t) as [item|] eqn:E.
  2: { rewrite (ItemsFacts.getItem_None itemId uid t) in E.
       rewrite (mutate_denied m itemId uid t E). discriminate. }
  apply ItemsFacts.getItem_Some in E as [Ht Hu].
  assert (Hg : ItemsService.getItem itemId uid t = Some item)
    by (apply ItemsFacts.getItem_Some; done).
  destruct m; simpl; unfold ItemsService.updateItem, ItemsService.archiveItem,
    ItemsService.deleteItem, ItemsService.restoreItem, ItemsService.hardDeleteItem,
    ItemsService.update_owned; rewrite Hg; simpl; intros [= <-]; exists item;
    (split; [done|]); (split; [done|]);
    (split; [intros k Hk; first [by rewrite lookup_insert_ne | by rewrite lookup_delete_ne]|]).
  all: first [ split; [by rewrite lookup_insert_eq|]; done
             | split; [done | by rewrite lookup_delete_eq] ].
Qed.

(** X16 witness: the owner archives an item. *)
Lemma items_mutation_frame_witness :
  exists item,
    alice_table !! "item-1" = Some item /\
    ItemsService.userId item = "alice".
Proof.
  destruct (items_mutation_frame (ItemsService.MArchive 5 6) "item-1" "alice"
    alice_table
    (ItemsService.mk_user_item "item-1" "alice" "Note" None None 0
       "archived" 1 6 (Some 5%Z) None)) as (item & H1 & H2 & _).
  - vm_compute. reflexivity.
  - exists item. done.
Defined.

Module ItemsFacts2.
Import ItemsService.

Lemma length_filter_rows (P : user_item -> Prop) `{!forall x, Decision (P x)} (t : Table) :
  length (filter P (map_to_list t).*2) = size (filter (fun kv : string * user_item => P kv.2) t).
Proof.
  induction t as [|k x t Hk IH] using map_ind.
  - rewrite map_to_list_empty, map_filter_empty. done.
  - rewrite map_to_list_insert by exact Hk. rewrite fmap_cons.
    destruct (decide (P x)) as [Hp|Hp].
    + rewrite filter_cons_True by exact Hp. cbn [length snd].
      rewrite map_filter_insert_True by exact Hp.
      rewrite map_size_insert_None; [by rewrite IH|].
      apply map_lookup_filter_None. by left.
    + rewrite filter_cons_False by exact Hp.
      rewrite map_filter_insert_False by exact Hp. rewrite delete_id; [exact IH|].
      first [exact Hk | apply map_lookup_filter_None; by left].
Qed.

Lemma getItem_insert_own (itemId uid : string) (t : Table) (item : user_item) :
  userId item = uid -> getItem itemId uid (<[itemId := item]> t) = Some item.
Proof. intros Hu. unfold getItem. rewrite lookup_insert_eq. by rewrite bool_decide_eq_true_2. Qed.

End ItemsFacts2.

(** X17. Archiving or soft-deleting an item and then restoring it gives
    back the original row with status 'active', no archivedAt or
    deletedAt, and the restore time as updatedAt; title, description,
    metadata, order, owner and createdAt are those of the original row,
    and no other row changes. *)
Theorem items_restore_roundtrip (itemId uid : string) (t : ItemsService.Table)
    (item : ItemsService.user_item) (at1 at2 now : Z) :
  ItemsService.getItem itemId uid t = Some item ->
  let restored :=
    ItemsService.mk_user_item (ItemsService.id item) (ItemsService.userId item)
      (ItemsService.title item) (ItemsService.description item)
      (ItemsService.metadata item) (ItemsService.order item) "active"
      (ItemsService.createdAt item) now None None in
  ItemsService.restoreItem itemId uid now (ItemsService.archiveItem itemId uid at1 at2 t).2 =
    (Ok restored, <[itemId := restored]> t) /\
  ItemsService.restoreItem itemId uid now (ItemsService.deleteItem itemId uid at1 at2 t).2 =
    (Ok restored, <[itemId := restored]> t).
Proof.
  intros Hg. pose proof Hg as Hg'. apply ItemsFacts.getItem_Some in Hg' as [Ht Hu].
  unfold ItemsService.restoreItem, ItemsService.archiveItem, ItemsService.deleteItem,
    ItemsService.update_owned.
  rewrite Hg. simpl.
  split; (rewrite ItemsFacts2.getItem_insert_own by exact Hu); simpl;
    by rewrite insert_insert_eq.
Qed.

(** X17 witness: alice archives and restores her note. *)
Lemma items_restore_roundtrip_witness :
  ItemsService.restoreItem "item-1" "alice" 9
    (ItemsService.archiveItem "item-1" "alice" 5 5 alice_table).2 =
  (Ok (ItemsService.mk_user_item "item-1" "alice" "Note" None None 0 "active" 1 9 None None),
   <["item-1" := ItemsService.mk_user_item "item-1" "alice" "Note" None None 0
                   "active" 1 9 None None]> alice_table).
Proof.
  apply (items_restore_roundtrip "item-1" "alice" alice_table alice_note 5 5 9).
  reflexivity.
Defined.

(** X18. createItem with a fresh id stores a row that its owner reads
    back with getItem: status 'active', the given title, description and
    metadata, order defaulting to 0, no archivedAt or deletedAt.  No other
    user can read it, no other row changes, and the owner's count of
    active items grows by one. *)
Theorem createItem_getItem (generated : string) (now : Z)
    (input : ItemsService.CreateItemInput) (t : ItemsService.Table) :
  t !! generated = None ->
  let '(r, t') := ItemsService.createItem generated now input t in
  exists item, r = Ok item /\
    ItemsService.getItem generated (ItemsService.ci_userId input) t' = Some item /\
    ItemsService.status item = "active" /\
    ItemsService.title item = ItemsService.ci_title input /\
    ItemsService.description item = ItemsService.ci_description input /\
    ItemsService.metadata item = ItemsService.ci_metadata input /\
    ItemsService.order item = default 0%Z (ItemsService.ci_order input) /\
    ItemsService.archivedAt item = None /\ ItemsService.deletedAt item = None /\
    (forall u, u <> ItemsService.ci_userId input -> ItemsService.getItem generated u t' = None) /\
    (forall k, k <> generated -> t' !! k = t !! k) /\
    ItemsService.countUserItems (ItemsService.ci_userId input) (Some "active") t' =
      S (ItemsService.countUserItems (ItemsService.ci_userId input) (Some "active") t).
Proof.
  intros Hk. unfold ItemsService.createItem. rewrite Hk. eexists. split; [reflexivity|].
  split; [apply ItemsFacts.getItem_Some; by rewrite lookup_insert_eq|].
  do 7 (split; [reflexivity|]).
  split; [intros u Hu; apply ItemsFacts.getItem_None; right; eexists;
          split; [by rewrite lookup_insert_eq | simpl; congruence]|].
  split; [intros k' Hk'; by rewrite lookup_insert_ne|].
  rewrite ItemsFacts.count_insert_new by exact Hk.
  rewrite decide_True; [done|]. unfold ItemsService.matches. simpl. done.
Qed.

(** X18 witness: bob adds an item next to alice's. *)
Lemma createItem_getItem_witness :
  alice_table !! "item-2" = None /\
  exists item,
    (ItemsService.createItem "item-2" 7
       (ItemsService.mk_create_item_input "bob" "Todo" None None None) alice_table).1 = Ok item /\
    ItemsService.getItem "item-2" "bob"
      (ItemsService.createItem "item-2" 7
         (ItemsService.mk_create_item_input "bob" "Todo" None None None) alice_table).2 =
      Some item.
Proof.
  pose proof (createItem_getItem "item-2" 7
     (ItemsService.mk_create_item_input "bob" "Todo" None None None) alice_table
     eq_refl) as H.
  destruct (ItemsService.createItem "item-2" 7
     (ItemsService.mk_create_item_input "bob" "Todo" None None None) alice_table) as [r t'].
  destruct H as (item & Hr & Hg & _).
  split; [reflexivity|]. exists item. simpl. split; [exact Hr | exact Hg].
Defined.

(** X19. hardDeleteItem by the owner returns the row and removes it for
    good: getItem no longer finds it for anyone, a second hard delete
    fails with 'Item not found or access denied', and every count of the
    owner's items that included it drops by one. *)
Theorem hardDeleteItem_removes (itemId uid : string) (t : ItemsService.Table)
    (item : ItemsService.user_item) :
  ItemsService.getItem itemId uid t = Some item ->
  let '(r, t') := ItemsService.hardDeleteItem itemId uid t in
  r = Ok item /\
  (forall u, ItemsService.getItem itemId u t' = None) /\
  ItemsService.hardDeleteItem itemId uid t' =
    (Throw (JsError ItemsService.not_found_message), t') /\
  (forall st, ItemsService.matches uid st item ->
   ItemsService.countUserItems uid st t' = ItemsService.countUserItems uid st t - 1).
Proof.
  intros Hg. pose proof Hg as Hg'. apply ItemsFacts.getItem_Some in Hg' as [Ht Hu].
  unfold ItemsService.hardDeleteItem at 1. rewrite Hg.
  assert (Hn : forall u, ItemsService.getItem itemId u (delete itemId t) = None).
  { intros u. apply ItemsFacts.getItem_None. left. apply lookup_delete_eq. }
  split; [done|]. split; [exact Hn|]. split.
  - unfold ItemsService.hardDeleteItem. by rewrite Hn.
  - intros st Hm. exact (ItemsFacts.count_delete uid st t itemId item Ht Hm).
Qed.

(** X19 witness: alice hard-deletes her note. *)
Lemma hardDeleteItem_removes_witness :
  (ItemsService.hardDeleteItem "item-1" "alice" alice_table).1 = Ok alice_note /\
  ItemsService.countUserItems "alice" None
    (ItemsService.hardDeleteItem "item-1" "alice" alice_table).2 = 0.
Proof.
  pose proof (hardDeleteItem_removes "item-1" "alice" alice_table alice_note eq_refl) as H.
  destruct (ItemsService.hardDeleteItem "item-1" "alice" alice_table) as [r t'].
  destruct H as (Hr & _ & _ & Hc). simpl.
  split; [exact Hr|].
  rewrite (Hc None); [reflexivity|]. split; reflexivity.
Defined.

(** X20. Whatever order the database returns rows in, getUserItems
    returns at most [limit] rows (50 by default), all of them rows of the
    table owned by the user and, unless the status option is the empty
    string, with the requested status ('active' by default).  From offset
    0 with a limit at least the number of matching rows it returns
    exactly countUserItems(userId, status) rows. *)
Theorem getUserItems_bounds
    (db_order : ItemsService.order_column -> ItemsService.order_direction ->
                list ItemsService.user_item -> list ItemsService.user_item)
    (uid : string) (options : ItemsService.GetItemsOptions) (t : ItemsService.Table) :
  (forall c d l, db_order c d l ≡ₚ l) ->
  let items := ItemsService.getUserItems db_order uid options t in
  let st := default "active" (ItemsService.go_status options) in
  length items <= default 50 (ItemsService.go_limit options) /\
  (forall item, item ∈ items ->
     (exists k, t !! k = Some item) /\ ItemsService.userId item = uid /\
     (st <> "" -> ItemsService.status item = st)) /\
  (default 0 (ItemsService.go_offset options) = 0 ->
   ItemsService.countUserItems uid (Some st) t <= default 50 (ItemsService.go_limit options) ->
   length items = ItemsService.countUserItems uid (Some st) t).
Proof.
  intros Hperm. simpl. unfold ItemsService.getUserItems.
  set (st := default "active" (ItemsService.go_status options)).
  set (L := filter (ItemsService.matches uid (Some st)) (map_to_list t).*2).
  set (O := db_order (default ItemsService.ByCreatedAt (ItemsService.go_orderBy options))
              (default ItemsService.Desc (ItemsService.go_orderDirection options)) L).
  assert (HO : O ≡ₚ L) by apply Hperm.
  split; [rewrite length_take; lia|]. split.
  - intros item Hin.
    assert (HinL : item ∈ L).
    { rewrite <- HO. eapply elem_of_sublist; [|apply sublist_drop].
      eapply elem_of_sublist; [exact Hin | apply sublist_take]. }
    unfold L in HinL. apply list_elem_of_filter in HinL as [[Hu Hs] Hin'].
    apply list_elem_of_fmap in Hin' as ([k x] & -> & Hkx).
    apply elem_of_map_to_list in Hkx. split; [eauto|]. split; [done|].
    intros Hne. simpl in Hs. unfold truthy in Hs.
    rewrite (bool_decide_eq_false_2 _ Hne) in Hs. exact Hs.
  - intros Hoff Hle. rewrite Hoff, drop_0, length_take.
    rewrite (Permutation_length HO). unfold L.
    rewrite ItemsFacts2.length_filter_rows. unfold ItemsService.countUserItems in *. lia.
Qed.

(** X20 witness: the database order as stored, the default options. *)
Lemma getUserItems_bounds_witness :
  ItemsService.getUserItems (fun _ _ l => l) "alice"
    (ItemsService.mk_get_items_options None None None None None) alice_table = [alice_note] /\
  length (ItemsService.getUserItems (fun _ _ l => l) "alice"
    (ItemsService.mk_get_items_options None None None None None) alice_table) = 1.
Proof.
  split; [reflexivity|].
  destruct (getUserItems_bounds (fun _ _ l => l) "alice"
    (ItemsService.mk_get_items_options None None None None None) alice_table
    (fun _ _ _ => reflexivity _)) as (_ & _ & Hc).
  rewrite Hc; [reflexivity | reflexivity | vm_compute; lia].
Defined.
